(** * sk-pkg/notify: the Lark dispatcher, its token cache and its
      rate-limit-aware request executor

    A shallow embedding of the Go packages [cache], [msgid] and [lark].

    Conventions.
    - Go [int] and [int64] are 64-bit two's-complement integers; they are
      carried as [Z] and every operation that can leave the range is
      written with [wrap64].
    - The wall clock is a [Z] counting nanoseconds since the Unix epoch.
    - Everything the code mutates (clock, network history, token cache,
      message channel, id generator) lives in one state record [St] that
      is threaded through a small state monad.
    - The network is an oracle [net]: what the transport answers to a
      request, given everything that happened before and the time.
    - What lies outside the repository (the network, [encoding/json],
      the time zone, the host, the worker-pool library) is a field of
      the class [Platform], so a theorem stated for a [Platform] holds
      for any server and any codec. *)

From Stdlib Require Import ZArith String Ascii List Bool Lia.
From stdpp Require Import base option gmap strings list.

Local Open Scope string_scope.
Local Open Scope Z_scope.

(** ** Machine integers *)

Definition int64_min : Z := - 2 ^ 63.
Definition int64_max : Z := 2 ^ 63 - 1.

(** Two's-complement reduction into the [int64] range. *)
Definition wrap64 (z : Z) : Z := (z + 2 ^ 63) mod 2 ^ 64 - 2 ^ 63.

Definition in_int64 (z : Z) : Prop := int64_min <= z <= int64_max.

(** ** Go values of interface type [any]

    The cases the repository distinguishes: strings (the only case the
    type assertions [m.Content.(string)] accept), the values
    [encoding/json] can encode, and a value it cannot encode. *)

#[warnings="-register-all"]
Inductive any : Type :=
| Nil
| Str (s : string)
| Num (z : Z)
| Boolean (b : bool)
| Obj (fields : gmap string any)
| Arr (items : list any)
| Func.

(** ** Go errors

    An error keeps the format string of the [fmt.Errorf] (or the text of
    the [errors.New]) that built it, together with its arguments. *)

Inductive error : Type :=
| errors_New (text : string)
| Errorf_s (format : string) (a : string)
| Errorf_d (format : string) (a : Z)
| Errorf_v (format : string) (a : error)
| Errorf_w (format : string) (cause : error)
| Errorf_sw (format : string) (a : string) (cause : error)
| Errorf_sv (format : string) (a : string) (b : error).

(** What a call does: return a value, return an error, or panic. *)
Inductive res (A : Type) : Type :=
| Ok (a : A)
| Err (e : error)
| Panic (why : string).
Arguments Ok {A} a.
Arguments Err {A} e.
Arguments Panic {A} why.

(** ** Package [strconv]: [Atoi] on a 64-bit platform *)

Module strconv.

Definition is_digit (c : ascii) : bool :=
  (48 <=? Z.of_nat (nat_of_ascii c)) && (Z.of_nat (nat_of_ascii c) <=? 57).

(** Base-10 value of a string of digits, [None] on any other byte. *)
Fixpoint digits_value (acc : Z) (s : string) : option Z :=
  match s with
  | EmptyString => Some acc
  | String c rest =>
      if is_digit c
      then digits_value (acc * 10 + (Z.of_nat (nat_of_ascii c) - 48)) rest
      else None
  end.

(** [Atoi s]: an optional sign, then at least one digit and nothing
    else; the value has to fit [int].  [None] stands for both of its
    errors (syntax and range), which no caller tells apart. *)
Definition Atoi (s : string) : option Z :=
  match s with
  | EmptyString => None
  | String c rest =>
      let neg := Ascii.eqb c "-" in
      let body := if neg || Ascii.eqb c "+" then rest else s in
      match body with
      | EmptyString => None
      | _ =>
          match digits_value 0 body with
          | None => None
          | Some n =>
              let v := if neg then - n else n in
              if (int64_min <=? v) && (v <=? int64_max) then Some v else None
          end
      end
  end.

(** The digit alphabet: [0-9] then [a-z]. *)
Definition digit (d : Z) : ascii :=
  ascii_of_nat (Z.to_nat (if d <? 10 then 48 + d else 87 + d)).

(** The digits of [n >= 0] in [base], most significant first, in front of
    [acc]; [count] bounds their number. *)
Fixpoint format_digits (base : Z) (count : nat) (n : Z) (acc : string) : string :=
  match count with
  | O => acc
  | S count' =>
      let acc' := String (digit (n mod base)) acc in
      if n / base =? 0 then acc' else format_digits base count' (n / base) acc'
  end.

(** [FormatUint(n, base)] for a [uint64]: at most 64 digits. *)
Definition FormatUint (n base : Z) : string := format_digits base 64 n "".

(** [FormatInt(n, base)] for an [int64]. *)
Definition FormatInt (n base : Z) : string :=
  if n <? 0 then "-" ++ format_digits base 64 (- n) ""
  else format_digits base 64 n "".

End strconv.

(** ** Package [net/textproto]: canonical header keys

    [net/http] files every response header under the canonical form of
    its name. *)

Module textproto.

Definition isLower (c : ascii) : bool :=
  (97 <=? Z.of_nat (nat_of_ascii c)) && (Z.of_nat (nat_of_ascii c) <=? 122).

Definition isUpper (c : ascii) : bool :=
  (65 <=? Z.of_nat (nat_of_ascii c)) && (Z.of_nat (nat_of_ascii c) <=? 90).

(** The bytes of an HTTP token: letters, digits and a few signs. *)
Definition validHeaderFieldByte (c : ascii) : bool :=
  isLower c || isUpper c || strconv.is_digit c
  || existsb (Ascii.eqb c) (list_ascii_of_string "!#$%&'*+-.^_`|~").

(** Upper case for the first letter and for a letter after a hyphen,
    lower case for the other letters. *)
Fixpoint canonical (upper : bool) (s : string) : string :=
  match s with
  | EmptyString => EmptyString
  | String c rest =>
      let n := nat_of_ascii c in
      let c' :=
        if upper && isLower c then ascii_of_nat (n - 32)
        else if negb upper && isUpper c then ascii_of_nat (n + 32)
        else c in
      String c' (canonical (Ascii.eqb c' "-") rest)
  end.

(** [CanonicalMIMEHeaderKey]: a name that is not a token is left alone. *)
Definition CanonicalMIMEHeaderKey (s : string) : string :=
  if forallb validHeaderFieldByte (list_ascii_of_string s)
  then canonical true s
  else s.

End textproto.

(** ** Package [time] (the fragment the repository uses) *)

Module time.

(** [time.Second], a [Duration] in nanoseconds. *)
Definition Second : Z := 1000000000.

(** [time.Duration(n) * time.Second]: an [int64] product. *)
Definition seconds (n : Z) : Z := wrap64 (n * Second).

(** [t.UnixNano()] for the instant [t]. *)
Definition UnixNano (t : Z) : Z := wrap64 t.

(** The civil date [(year, month, day)] of a day number counted from
    1970-01-01, in the proleptic Gregorian calendar. *)
Definition civil (days : Z) : Z * Z * Z :=
  let z := days + 719468 in
  let era := z / 146097 in
  let doe := z mod 146097 in
  let yoe := (doe - doe / 1460 + doe / 36524 - doe / 146096) / 365 in
  let doy := doe - (365 * yoe + yoe / 4 - yoe / 100) in
  let mp := (5 * doy + 2) / 153 in
  let d := doy - (153 * mp + 2) / 5 + 1 in
  let m := if mp <? 10 then mp + 3 else mp - 9 in
  (yoe + era * 400 + (if m <=? 2 then 1 else 0), m, d).

(** [appendInt]: the decimal digits of [x], zero-padded to [width], after
    a minus sign when [x < 0]. *)
Definition appendInt (x : Z) (width : nat) : string :=
  let ds := strconv.format_digits 10 20 (Z.abs x) "" in
  (if x <? 0 then "-" else "")
  ++ String.concat "" (repeat "0" (width - String.length ds)) ++ ds.

(** [t.Format("2006-01-02 15:04:05")] for the instant [t] (Unix
    nanoseconds), in the zone whose offset is [zone]. *)
Definition Format (zone : Z -> Z) (t : Z) : string :=
  let sec := t / Second in
  let loc := sec + zone sec in
  let '(year, month, day) := civil (loc / 86400) in
  let rem := loc mod 86400 in
  appendInt year 4 ++ "-" ++ appendInt month 2 ++ "-" ++ appendInt day 2
  ++ " " ++ appendInt (rem / 3600) 2 ++ ":" ++ appendInt (rem mod 3600 / 60) 2
  ++ ":" ++ appendInt (rem mod 60) 2.

End time.

(** ** Package [cache] *)

Module cache.

(** [type item struct { value string; expiration int64 }] *)
Record item : Type := Item { value : string; expiration : Z }.

(** The two sentinel errors of the package. *)
Inductive error : Type := ErrKeyNotFound | ErrKeyExpired.

(** [SetString]; [now] is the reading of [time.Now()].  The Go function
    also returns an [error], which is always [nil].  The [sync.Map] only
    ever receives [item] values, hence the typed map. *)
Definition SetString (now : Z) (key val : string) (expiration : Z)
    (buckets : gmap string item) : gmap string item :=
  let exp :=
    if 0 <? expiration
    then time.UnixNano (now + time.seconds expiration)
    else 0 in
  <[key := Item val exp]> buckets.

(** [GetString]; returns the Go pair [(string, error)] and the map,
    from which an expired entry has been deleted. *)
Definition GetString (now : Z) (key : string) (buckets : gmap string item)
    : (string * option error) * gmap string item :=
  match buckets !! key with
  | None => (("", Some ErrKeyNotFound), buckets)
  | Some v =>
      if negb (expiration v =? 0) && (expiration v <? time.UnixNano now)
      then (("", Some ErrKeyExpired), delete key buckets)
      else ((value v, None), buckets)
  end.

End cache.

(** ** Package [msgid] *)

Module msgid.

Definition initIndex : Z := 10000000.
Definition indexBase : Z := 36.

(** [type ID struct]: the sequence number (a [uint64]) and the prefix. *)
Record ID : Type := { index : Z; prefix : string }.

(** [updatePrefix], with the cached host name and the clock reading. *)
Definition updatePrefix (hostname : string) (now : Z) (m : ID) : ID :=
  {| index := initIndex;
     prefix := hostname ++ "-"
               ++ strconv.FormatInt (time.UnixNano now) indexBase ++ "-" |}.

Definition NewMessageID (hostname : string) (now : Z) : ID :=
  updatePrefix hostname now {| index := initIndex; prefix := "" |}.

(** [New].  When the incremented counter wraps to 0 the method takes
    [m.mu] and then calls [updatePrefix], which takes [m.mu] again: the
    call never returns, which is [None] here. *)
Definition New (m : ID) : option (string * ID) :=
  let newIndex := (index m + 1) mod 2 ^ 64 in
  if newIndex =? 0 then None
  else Some (prefix m ++ strconv.FormatUint newIndex indexBase,
             {| index := newIndex; prefix := prefix m |}).

End msgid.

(** ** Package [lark]: data *)

(** [type Request struct] *)
Module Request.
Record t : Type := {
  Method : string;
  URL : string;
  Headers : gmap string string;
  QueryParams : gmap string string;
  Body : any
}.
End Request.

(** [type Response struct]; [Body] is the byte string received. *)
Module Response.
Record t : Type := {
  StatusCode : Z;
  Body : string;
  Headers : gmap string (list string)
}.
End Response.

(** [type appTokenResp struct] *)
Module appTokenResp.
Record t : Type := {
  Code : Z;
  Msg : string;
  AppAccessToken : string;
  Expire : Z
}.
End appTokenResp.

(** [type messageResp struct] *)
Module messageResp.
Record t : Type := { Code : Z; Msg : string }.
End messageResp.

(** [type Message struct] *)
Record Message : Type := {
  ID : string;
  SendChannelName : string;
  SendTo : string;
  MsgType : string;
  MsgLevel : string;
  Title : string;
  Content : any
}.

(** The two kinds of [func() (string, error)] an [app] can hold: the
    function the configuration supplied (here by what it returns), or the
    closure over [getToken] that [New] installs. *)
Inductive tokenFunc : Type :=
| UserToken (returns : res string)
| DefaultToken (appID appSecret appTokenAPI : string).

(** [type app struct] *)
Record app : Type := { token : tokenFunc; msgAPI : string }.

(** [type Lark struct]; a [nil] [Token] is [None]. *)
Module Lark.
Record t : Type := {
  AppType : string;
  Token : option (res string);
  AppID : string;
  AppSecret : string
}.
End Lark.

(** [type Config struct] *)
Record Config : Type := {
  Enabled : bool;
  DefaultSendChannelName : string;
  ChannelSize : Z;
  PoolSize : Z;
  BotWebhooks : gmap string string;
  Larks : gmap string Lark.t
}.

(** The immutable part of [type notify struct]. *)
Record notify : Type := {
  defaultSendChannelName : string;
  apps : gmap string app;
  botWebhooks : gmap string string
}.

(** A buffered channel of messages: [make(chan Message, capacity)]. *)
Record chan : Type := { buf : list Message; capacity : Z; closed : bool }.

(** ** The world *)

(** What the program does to its environment, in order. *)
Inductive event : Type :=
| Sent (request : Request.t)      (* one [req.Execute] *)
| Slept (d : Z)                   (* one [time.Sleep(d)], [d] in nanoseconds *)
| TokenCalled (f : tokenFunc).    (* one call of an [app]'s token function *)

(** What the transport does with one request. *)
Inductive outcome : Type :=
| TransportError (e : error)
| Reply (resp : Response.t).

(** Everything outside the repository: the network, [encoding/json],
    the time zone, the host and the worker-pool library. *)
Class Platform : Type := {
  (** the answer to a request, given the history and the clock *)
  net : list event -> Z -> Request.t -> outcome;
  json_Marshal : any -> res string;
  json_Unmarshal_map : string -> res (gmap string any);
  json_Unmarshal_appTokenResp : string -> res appTokenResp.t;
  json_Unmarshal_messageResp : string -> res messageResp.t;
  (** seconds east of UTC in force at a given Unix second *)
  zoneOffset : Z -> Z;
  (** [os.Hostname()], or ["unknown"] *)
  hostname : string;
  (** [runtime.GOMAXPROCS(0)] *)
  GOMAXPROCS : Z;
  (** the error of [ants.NewPoolWithFunc] for a pool size, if any *)
  NewPoolWithFunc : Z -> option error
}.

(** The mutable state: the clock, the history, and the objects a
    [notify] owns ([cache], [messages], [msgID]). *)
Record St : Type := {
  clock : Z;
  trace : list event;
  buckets : gmap string cache.item;
  messages : chan;
  msgID : msgid.ID
}.

Definition M (A : Type) : Type := St -> A * St.

Definition ret {A : Type} (a : A) : M A := fun s => (a, s).

Definition bind {A B : Type} (m : M A) (k : A -> M B) : M B :=
  fun s => let (a, s') := m s in k a s'.

Notation "x <- m ;; k" := (bind m (fun x => k))
  (at level 63, m at next level, right associativity).

Definition emit (e : event) : M unit :=
  fun s => (tt, {| clock := clock s; trace := trace s ++ [e];
                   buckets := buckets s; messages := messages s;
                   msgID := msgID s |}).

(** [time.Now()] *)
Definition Now : M Z := fun s => (clock s, s).

(** [time.Sleep(d)]: returns at once when [d <= 0]. *)
Definition Sleep (d : Z) : M unit :=
  fun s => (tt, {| clock := clock s + Z.max 0 d; trace := trace s ++ [Slept d];
                   buckets := buckets s; messages := messages s;
                   msgID := msgID s |}).

(** [n.cache.GetString(key)] *)
Definition cache_GetString (key : string) : M (string * option cache.error) :=
  fun s =>
    let (r, b) := cache.GetString (clock s) key (buckets s) in
    (r, {| clock := clock s; trace := trace s; buckets := b;
           messages := messages s; msgID := msgID s |}).

(** [n.cache.SetString(key, value, expiration)] *)
Definition cache_SetString (key val : string) (expiration : Z) : M unit :=
  fun s =>
    (tt, {| clock := clock s; trace := trace s;
            buckets := cache.SetString (clock s) key val expiration (buckets s);
            messages := messages s; msgID := msgID s |}).

(** ** Package [lark]: the request executor ([request.go]) *)

(** [executeRequest]: one call of the transport. *)
Definition executeRequest {P : Platform} (request : Request.t) : M (res Response.t) :=
  fun s =>
    let r := match net (trace s) (clock s) request with
             | TransportError e => Err e
             | Reply resp => Ok resp
             end in
    (r, snd (emit (Sent request) s)).

(** [extractResetTime] *)
Definition extractResetTime (resetHeaders : list string) : Z :=
  match resetHeaders with
  | [] => 60
  | h :: _ =>
      match strconv.Atoi h with
      | None => 60
      | Some resetTime => resetTime
      end
  end.

(** The [for retry := 0; retry <= maxRetries; retry++] loop of
    [sendLarkAPIRequest], entered with the counter at [retry]; [left] is
    the number of values of the counter, from [retry] on, for which the
    guard [retry <= maxRetries] holds, so [O] is the exit of the loop. *)
Fixpoint retryLoop {P : Platform} (request : Request.t) (maxRetries : Z)
    (left : nat) (retry : Z) : M (res Response.t) :=
  match left with
  | O => ret (Err (Errorf_d "failed to send request after %d retries" maxRetries))
  | S left' =>
      r <- executeRequest request ;;
      match r with
      | Err e => ret (Err (Errorf_w "failed to execute request: %w" e))
      | Panic why => ret (Panic why)
      | Ok resp =>
          if Response.StatusCode resp =? 429 then
            if retry <? maxRetries then
              let resetTime :=
                extractResetTime
                  (default [] (Response.Headers resp !! "x-ogw-ratelimit-reset")) in
              (_ <- Sleep (time.seconds resetTime) ;;
               retryLoop request maxRetries left' (retry + 1))
            else
              ret (Err (Errorf_d "rate limit exceeded after %d retries" maxRetries))
          else ret (Ok resp)
      end
  end.

(** [sendLarkAPIRequest] *)
Definition sendLarkAPIRequest {P : Platform} (request : Request.t) (maxRetries : Z)
    : M (res Response.t) :=
  let maxRetries := if maxRetries <=? 0 then 3 else maxRetries in
  retryLoop request maxRetries (Z.to_nat (maxRetries + 1)) 0.

(** ** Package [lark]: tokens ([lark.go]) *)

(** [tokenCacheKey] with the application id filled in. *)
Definition tokenCacheKey (appID : string) : string := "lark:token:" ++ appID.

Definition tokenRequest (appID appSecret appTokenAPI : string) : Request.t :=
  {| Request.Method := "POST";
     Request.URL := appTokenAPI;
     Request.Headers := {[ "Content-Type" := "application/json; charset=utf-8" ]};
     Request.QueryParams := ∅;
     Request.Body := Obj {[ "app_id" := Str appID; "app_secret" := Str appSecret ]} |}.

(** [getToken] *)
Definition getToken {P : Platform} (appID appSecret appTokenAPI : string)
    : M (res string) :=
  let cacheKey := tokenCacheKey appID in
  cached <- cache_GetString cacheKey ;;
  let (token, err) := (cached : string * option cache.error) in
  if bool_decide (err = None) && negb (String.eqb token "") then ret (Ok token)
  else
    r <- sendLarkAPIRequest (tokenRequest appID appSecret appTokenAPI) 3 ;;
    match r with
    | Err e => ret (Err (Errorf_w "failed to request Lark App Token: %w" e))
    | Panic why => ret (Panic why)
    | Ok response =>
        match json_Unmarshal_appTokenResp (Response.Body response) with
        | Err e => ret (Err (Errorf_w "failed to parse token response: %w" e))
        | Panic why => ret (Panic why)
        | Ok rs =>
            if negb (appTokenResp.Code rs =? 0) then
              ret (Err (Errorf_s "failed to obtain Lark App Token: %s"
                          (appTokenResp.Msg rs)))
            else
              (_ <- cache_SetString cacheKey (appTokenResp.AppAccessToken rs)
                     (wrap64 (appTokenResp.Expire rs - 100)) ;;
               ret (Ok (appTokenResp.AppAccessToken rs)))
        end
    end.

(** A call [a.token()]. *)
Definition callToken {P : Platform} (f : tokenFunc) : M (res string) :=
  _ <- emit (TokenCalled f) ;;
  match f with
  | UserToken returns => ret returns
  | DefaultToken appID appSecret appTokenAPI => getToken appID appSecret appTokenAPI
  end.

(** ** Package [lark]: delivery ([bot.go], [app.go], [lark.go]) *)

(** The type assertion [v.(string)]. *)
Definition assertString (v : any) : res string :=
  match v with
  | Str s => Ok s
  | _ => Panic "interface conversion: interface {} is not string"
  end.

(** The body [params] that [sendBotWebhookMessage] builds. *)
Definition botParams {P : Platform} (m : Message) : res (gmap string any) :=
  let params : gmap string any := {[ "msg_type" := Str (MsgType m) ]} in
  if String.eqb (MsgType m) "text" then
    match assertString (Content m) with
    | Ok c => Ok (<["content" := Obj {[ "text" := Str c ]}]> params)
    | Err e => Err e
    | Panic why => Panic why
    end
  else if String.eqb (MsgType m) "post" then
    Ok (<["content" := Obj {[ "post" := Content m ]}]> params)
  else if String.eqb (MsgType m) "share_chat" then
    match assertString (Content m) with
    | Ok c => Ok (<["content" := Obj {[ "share_chat_id" := Str c ]}]> params)
    | Err e => Err e
    | Panic why => Panic why
    end
  else if String.eqb (MsgType m) "image" then
    match assertString (Content m) with
    | Ok c => Ok (<["content" := Obj {[ "image_key" := Str c ]}]> params)
    | Err e => Err e
    | Panic why => Panic why
    end
  else if String.eqb (MsgType m) "interactive" then
    match json_Marshal (Content m) with
    | Ok cardJson => Ok (<["card" := Str cardJson]> params)
    | Err e => Err (Errorf_w "marshal card content failed: %w" e)
    | Panic why => Panic why
    end
  else Ok params.

Definition botRequest (webhook : string) (params : gmap string any) : Request.t :=
  {| Request.Method := "POST";
     Request.URL := webhook;
     Request.Headers := {[ "Content-Type" := "application/json; charset=utf-8" ]};
     Request.QueryParams := ∅;
     Request.Body := Obj params |}.

(** [sendBotWebhookMessage]; [Ok tt] is the [nil] error. *)
Definition sendBotWebhookMessage {P : Platform} (webhook : string) (m : Message)
    : M (res unit) :=
  match botParams m with
  | Err e => ret (Err e)
  | Panic why => ret (Panic why)
  | Ok params =>
      r <- sendLarkAPIRequest (botRequest webhook params) 3 ;;
      match r with
      | Err e => ret (Err (Errorf_w "failed to send bot message: %w" e))
      | Panic why => ret (Panic why)
      | Ok response =>
          match json_Unmarshal_messageResp (Response.Body response) with
          | Err e => ret (Err (Errorf_w "failed to parse response: %w" e))
          | Panic why => ret (Panic why)
          | Ok rs =>
              if negb (messageResp.Code rs =? 0)
              then ret (Err (Errorf_s "failed to send bot message: %s"
                               (messageResp.Msg rs)))
              else ret (Ok tt)
          end
      end
  end.

(** [json.Marshal] of a one-field map holding an asserted string; the
    ["text"] case drops the error of [Marshal]. *)
Definition marshalField {P : Platform} (field what : string) (content : any)
    (dropError : bool) : res string :=
  match assertString content with
  | Ok c =>
      match json_Marshal (Obj {[ field := Str c ]}) with
      | Ok b => Ok b
      | Err e =>
          if dropError then Ok ""
          else Err (Errorf_v ("failed to marshal " ++ what ++ " content: %v") e)
      | Panic why => Panic why
      end
  | Err e => Err e
  | Panic why => Panic why
  end.

(** The [content] string that [sendLarkAppMessage] builds. *)
Definition appContent {P : Platform} (m : Message) : res string :=
  let t := MsgType m in
  if String.eqb t "text" then marshalField "text" "text" (Content m) true
  else if String.eqb t "image" then marshalField "image_key" "image" (Content m) false
  else if String.eqb t "audio" || String.eqb t "file"
          || String.eqb t "media" || String.eqb t "sticker"
  then marshalField "file_key" "file" (Content m) false
  else if String.eqb t "share_chat"
  then marshalField "chat_id" "share chat" (Content m) false
  else if String.eqb t "share_user"
  then marshalField "user_id" "share user" (Content m) false
  else if String.eqb t "post" || String.eqb t "interactive" || String.eqb t "system"
  then
    match json_Marshal (Content m) with
    | Ok b => Ok b
    | Err e => Err (Errorf_sv "failed to marshal %s content: %v" t e)
    | Panic why => Panic why
    end
  else Err (Errorf_s "invalid message type: %s" t).

Definition appRequest (token msgAPI : string) (m : Message) (content : string)
    : Request.t :=
  {| Request.Method := "POST";
     Request.URL := msgAPI;
     Request.Headers :=
       {[ "Content-Type" := "application/json; charset=utf-8";
          "Authorization" := "Bearer " ++ token ]};
     Request.QueryParams := {[ "receive_id_type" := "user_id" ]};
     Request.Body :=
       Obj {[ "receive_id" := Str (SendTo m);
              "msg_type" := Str (MsgType m);
              "content" := Str content ]} |}.

(** [sendLarkAppMessage] *)
Definition sendLarkAppMessage {P : Platform} (token msgAPI : string) (m : Message)
    : M (res unit) :=
  match appContent m with
  | Err e => ret (Err e)
  | Panic why => ret (Panic why)
  | Ok content =>
      r <- sendLarkAPIRequest (appRequest token msgAPI m content) 3 ;;
      match r with
      | Err e => ret (Err (Errorf_w "failed to send app message: %w" e))
      | Panic why => ret (Panic why)
      | Ok response =>
          match json_Unmarshal_messageResp (Response.Body response) with
          | Err e => ret (Err (Errorf_w "failed to parse response: %w" e))
          | Panic why => ret (Panic why)
          | Ok rs =>
              if negb (messageResp.Code rs =? 0)
              then ret (Err (errors_New (messageResp.Msg rs)))
              else ret (Ok tt)
          end
      end
  end.

(** [sendMsg] *)
Definition sendMsg {P : Platform} (n : notify) (m : Message) : M (res unit) :=
  let channel :=
    if String.eqb (SendChannelName m) "" then defaultSendChannelName n
    else SendChannelName m in
  match botWebhooks n !! channel with
  | Some webhook => sendBotWebhookMessage webhook m
  | None =>
      match apps n !! channel with
      | Some a =>
          if String.eqb (SendTo m) "" then
            ret (Err (Errorf_s "sendTo is required for lark app %s" channel))
          else
            t <- callToken (token a) ;;
            match t with
            | Err e =>
                ret (Err (Errorf_sw "failed to get token for lark app %s: %w"
                            channel e))
            | Panic why => ret (Panic why)
            | Ok t => sendLarkAppMessage t (msgAPI a) m
            end
      | None => ret (Err (Errorf_s "channel %s is not found in lark" channel))
      end
  end.

(** ** Package [lark]: the card ([template.go]) *)

(** [type defaultCardMsgTmplData struct] *)
Module defaultCardMsgTmplData.
Record t : Type := {
  Content : string;
  Time : string;
  Title : string;
  LevelColor : string
}.
End defaultCardMsgTmplData.

(** A parsed [text/template] of the shape used here: literal text and
    the actions [{{.Field}}], which insert a field as it is. *)
Inductive node : Type :=
| Text (s : string)
| Action (field : defaultCardMsgTmplData.t -> string).

(** The text of the template is written with ['] where the source has a
    double quote; [quoted] puts the double quotes back. *)
Fixpoint quoted (s : string) : string :=
  match s with
  | EmptyString => EmptyString
  | String c rest =>
      String (if Ascii.eqb c "'" then "034"%char else c) (quoted rest)
  end.

(** The literal text of [defaultCardMsgTmpl], in five pieces around its
    four actions. *)

(** The text up to the content. *)
Definition tmplHead : string := quoted "
{
    'config': {},
    'i18n_elements': {
        'zh_cn': [
            {
                'tag': 'markdown',
                'content': '".

(** The text between the content and the time. *)
Definition tmplAfterContent : string := quoted "',
                'text_align': 'left',
                'text_size': 'normal'
            },
            {
                'tag': 'column_set',
                'flex_mode': 'none',
                'background_style': 'default',
                'horizontal_spacing': '8px',
                'horizontal_align': 'left',
                'columns': [
                    {
                        'tag': 'column',
                        'width': 'weighted',
                        'vertical_align': 'top',
                        'vertical_spacing': '8px',
                        'background_style': 'default',
                        'elements': [
                            {
                                'tag': 'hr'
                            },
                            {
                                'tag': 'column_set',
                                'flex_mode': 'none',
                                'horizontal_spacing': 'default',
                                'background_style': 'default',
                                'columns': [
                                    {
                                        'tag': 'column',
                                        'elements': [
                                            {
                                                'tag': 'div',
                                                'text': {
                                                    'tag': 'plain_text',
                                                    'content': '".

(** The text between the time and the title. *)
Definition tmplAfterTime : string := quoted "',
                                                    'text_size': 'notation',
                                                    'text_align': 'left',
                                                    'text_color': 'grey'
                                                },
                                                'icon': {
                                                    'tag': 'standard_icon',
                                                    'token': 'time_outlined',
                                                    'color': 'grey'
                                                }
                                            }
                                        ],
                                        'width': 'weighted',
                                        'weight': 1
                                    }
                                ]
                            }
                        ],
                        'weight': 1,
                        'padding': '0px 0px 0px 0px'
                    }
                ],
                'margin': '16px 0px 0px 0px'
            }
        ]
    },
    'i18n_header': {
        'zh_cn': {
            'title': {
                'tag': 'plain_text',
                'content': '".

(** The text between the title and the color. *)
Definition tmplAfterTitle : string := quoted "'
            },
            'subtitle': {
                'tag': 'plain_text',
                'content': ''
            },
            'template': '".

(** The text after the color. *)
Definition tmplTail : string := quoted "'
        }
    }
}
".

(** [defaultCardMsgTmpl], parsed. *)
Definition defaultCardMsgTmpl : list node :=
  [ Text tmplHead;
    Action defaultCardMsgTmplData.Content;
    Text tmplAfterContent;
    Action defaultCardMsgTmplData.Time;
    Text tmplAfterTime;
    Action defaultCardMsgTmplData.Title;
    Text tmplAfterTitle;
    Action defaultCardMsgTmplData.LevelColor;
    Text tmplTail ].

(** [t.Execute]: every node in order.  With string fields and no
    pipelines it has no error. *)
Definition Execute (t : list node) (data : defaultCardMsgTmplData.t) : string :=
  String.concat ""
    (map (fun n => match n with Text s => s | Action field => field data end) t).

(** [levelColorMap] *)
Definition levelColorMap : gmap string string :=
  {[ "success" := "green"; "error" := "red"; "warn" := "yellow" ]}.

(** The color of a level: the entry of [levelColorMap], else ["blue"]. *)
Definition levelColor (level : string) : string :=
  default "blue" (levelColorMap !! level).

(** The data [generateTextCardMsgWithLevel] hands to the template at the
    instant [now]. *)
Definition cardData {P : Platform} (level title content : string) (now : Z)
    : defaultCardMsgTmplData.t :=
  {| defaultCardMsgTmplData.Content := content;
     defaultCardMsgTmplData.Time := time.Format zoneOffset now;
     defaultCardMsgTmplData.Title := title;
     defaultCardMsgTmplData.LevelColor := levelColor level |}.

(** [generateTextCardMsgWithLevel].  The constant template parses, so
    [getDefaultCardMsgTmpl] has no error. *)
Definition generateTextCardMsgWithLevel {P : Platform} (level title content : string)
    : M (res (gmap string any)) :=
  now <- Now ;;
  let result := Execute defaultCardMsgTmpl (cardData level title content now) in
  ret (json_Unmarshal_map result).

(** ** Package [lark]: configuration and construction ([lark.go]) *)

Definition feishuHost : string := "https://open.feishu.cn".
Definition larkHost : string := "https://open.larksuite.com".
Definition appAccessTokenAPI : string :=
  "/open-apis/auth/v3/app_access_token/internal/".
Definition messageAPI : string := "/open-apis/im/v1/messages".

Definition isNil {A : Type} (f : option A) : bool :=
  match f with None => true | Some _ => false end.

Definition empty (s : string) : bool := String.eqb s "".

(** The three cases of the [switch] in [validateConfig], which all fall
    through to the same [return]. *)
Definition larkConfigError (l : Lark.t) : bool :=
  (isNil (Lark.Token l) && empty (Lark.AppID l) && empty (Lark.AppSecret l))
  || (negb (empty (Lark.AppID l)) && empty (Lark.AppSecret l))
  || (empty (Lark.AppID l) && negb (empty (Lark.AppSecret l))).

Definition withSizes (config : Config) (channelSize poolSize : Z) : Config :=
  {| Enabled := Enabled config;
     DefaultSendChannelName := DefaultSendChannelName config;
     ChannelSize := channelSize;
     PoolSize := poolSize;
     BotWebhooks := BotWebhooks config;
     Larks := Larks config |}.

(** [validateConfig]: the error, if any, and the configuration with its
    defaulted sizes.  [range] over a map visits it in an order Go leaves
    open; here it is the order of [map_to_list].  Logging is left out. *)
Definition validateConfig {P : Platform} (config : Config) : option error * Config :=
  let webhookCount := Z.of_nat (size (BotWebhooks config)) in
  let larkCount := Z.of_nat (size (Larks config)) in
  if (webhookCount =? 0) && (larkCount =? 0) then
    (Some (errors_New "There are no available sending channels for lark. Please configure BotWebhooks or Larks "),
     config)
  else if empty (DefaultSendChannelName config) then
    (Some (errors_New "DefaultLarkSendChannelName is required"), config)
  else
    match
      (if (webhookCount =? 0) && negb (larkCount =? 0)
       then find (fun nl => larkConfigError (snd nl)) (map_to_list (Larks config))
       else None)
    with
    | Some (name, _) => (Some (Errorf_s "lark config error: %s" name), config)
    | None =>
        let channelSize :=
          if ChannelSize config =? 0 then wrap64 (10 * GOMAXPROCS)
          else ChannelSize config in
        let poolSize :=
          if PoolSize config =? 0 then wrap64 (10 * GOMAXPROCS)
          else PoolSize config in
        (None, withSizes config channelSize poolSize)
    end.

(** The body of the loop of [New] over [config.Larks]: the [app] of one
    entry.  [util.SpliceStr] is concatenation. *)
Definition newApp (name : string) (lark : Lark.t) : res app :=
  let host :=
    if String.eqb (Lark.AppType lark) "feishu" then Some feishuHost
    else if String.eqb (Lark.AppType lark) "lark" then Some larkHost
    else None in
  match host with
  | None => Err (Errorf_s "invalid lark app type: %s" (Lark.AppType lark))
  | Some host =>
      let msgAPI := host ++ messageAPI in
      let appTokenAPI := host ++ appAccessTokenAPI in
      match Lark.Token lark with
      | Some f => Ok {| token := UserToken f; msgAPI := msgAPI |}
      | None =>
          if empty (Lark.AppID lark) || empty (Lark.AppSecret lark)
          then Err (Errorf_s "lark config error: %s" name)
          else Ok {| token := DefaultToken (Lark.AppID lark) (Lark.AppSecret lark)
                                appTokenAPI;
                     msgAPI := msgAPI |}
      end
  end.

(** The loop of [New] over [config.Larks], filling [n.apps]. *)
Fixpoint initApps (larks : list (string * Lark.t)) (apps : gmap string app)
    : res (gmap string app) :=
  match larks with
  | [] => Ok apps
  | (name, lark) :: rest =>
      match newApp name lark with
      | Ok a => initApps rest (<[name := a]> apps)
      | Err e => Err e
      | Panic why => Panic why
      end
  end.

(** The fresh objects of a [notify]: [msgid.NewMessageID()], the channel
    and the cache. *)
Definition allocate {P : Platform} (channelSize : Z) : M unit :=
  fun s =>
    (tt, {| clock := clock s; trace := trace s;
            buckets := ∅;
            messages := {| buf := []; capacity := channelSize; closed := false |};
            msgID := msgid.NewMessageID hostname (clock s) |}).

(** [New].  [make(chan Message, size)] panics on a negative size. *)
Definition New {P : Platform} (config : Config) : M (res notify) :=
  match validateConfig config with
  | (Some err, _) => ret (Err err)
  | (None, config) =>
      if ChannelSize config <? 0 then ret (Panic "makechan: size out of range")
      else
        _ <- allocate (ChannelSize config) ;;
        match NewPoolWithFunc (PoolSize config) with
        | Some err =>
            ret (Err (Errorf_v "failed to create lark goroutine pool: %v" err))
        | None =>
            match initApps (map_to_list (Larks config)) ∅ with
            | Err e => ret (Err e)
            | Panic why => ret (Panic why)
            | Ok apps =>
                ret (Ok {| defaultSendChannelName := DefaultSendChannelName config;
                           apps := apps;
                           botWebhooks := BotWebhooks config |})
            end
        end
  end.

(** ** Package [lark]: submission ([lark.go]) *)

(** [shouldGenerateCardMsg] *)
Definition shouldGenerateCardMsg (message : Message) : bool :=
  negb (empty (MsgLevel message))
  && negb (empty (Title message))
  && (empty (MsgType message) || String.eqb (MsgType message) "text").

(** How a call of [SubmitMessage] ends. *)
Inductive submitted : Type :=
| Returned (id : string) (err : option error)
| Parked (pending : Message)   (* blocked in [n.messages <- pending] *)
| Hung                         (* blocked inside [n.msgID.New()] *)
| Panicked (why : string).

(** [n.msgID.New()] *)
Definition msgID_New : M (option string) :=
  fun s =>
    match msgid.New (msgID s) with
    | None => (None, s)
    | Some (id, m) =>
        (Some id, {| clock := clock s; trace := trace s; buckets := buckets s;
                     messages := messages s; msgID := m |})
    end.

(** [n.messages <- message]: panics on a closed channel, blocks while the
    buffer is full, and otherwise appends to the buffer. *)
Definition send (message : Message) : M submitted :=
  fun s =>
    let c := messages s in
    if closed c then (Panicked "send on closed channel", s)
    else if Z.of_nat (length (buf c)) <? capacity c then
      (Returned (ID message) None,
       {| clock := clock s; trace := trace s; buckets := buckets s;
          messages := {| buf := buf c ++ [message]; capacity := capacity c;
                         closed := closed c |};
          msgID := msgID s |})
    else (Parked message, s).

Definition withID (message : Message) (id : string) : Message :=
  {| ID := id; SendChannelName := SendChannelName message;
     SendTo := SendTo message; MsgType := MsgType message;
     MsgLevel := MsgLevel message; Title := Title message;
     Content := Content message |}.

(** The two assignments [message.MsgType = "interactive"] and
    [message.Content = cardContent]. *)
Definition withCard (message : Message) (cardContent : gmap string any) : Message :=
  {| ID := ID message; SendChannelName := SendChannelName message;
     SendTo := SendTo message; MsgType := "interactive";
     MsgLevel := MsgLevel message; Title := Title message;
     Content := Obj cardContent |}.

(** The first statement of [SubmitMessage]: the id of the message, or a
    new one. *)
Definition assignID (message : Message) : M (option string) :=
  if empty (ID message) then msgID_New else ret (Some (ID message)).

(** [SubmitMessage] *)
Definition SubmitMessage {P : Platform} (message : Message) : M submitted :=
  id <- assignID message ;;
  match id with
  | None => ret Hung
  | Some id =>
      let message := withID message id in
      if shouldGenerateCardMsg message then
        match Content message with
        | Str content =>
            r <- generateTextCardMsgWithLevel (MsgLevel message) (Title message)
                   content ;;
            match r with
            | Err err =>
                ret (Returned (ID message)
                       (Some (Errorf_w "failed to generate card message: %w" err)))
            | Panic why => ret (Panicked why)
            | Ok cardContent => send (withCard message cardContent)
            end
        | _ => send message
        end
      else send message
  end.

(** ** Observations on a history *)

(** The requests executed, oldest first. *)
Definition requests (tr : list event) : list Request.t :=
  omap (fun e => match e with Sent r => Some r | _ => None end) tr.

(** The durations slept, oldest first. *)
Definition sleeps (tr : list event) : list Z :=
  omap (fun e => match e with Slept d => Some d | _ => None end) tr.

(** The channel [sendMsg] resolves for a message. *)
Definition resolvedChannel (n : notify) (m : Message) : string :=
  if String.eqb (SendChannelName m) "" then defaultSendChannelName n
  else SendChannelName m.

(** The message types [sendBotWebhookMessage] has a case for. *)
Definition botTypes : list string :=
  ["text"; "post"; "share_chat"; "image"; "interactive"].

(** A notifier with one webhook, ["ops"], and one application, ["app"]. *)
Definition exampleNotify : notify :=
  {| defaultSendChannelName := "ops";
     apps := {[ "app" := {| token := UserToken (Ok "t-xxxxxxx");
                            msgAPI := larkHost ++ messageAPI |} ]};
     botWebhooks :=
       {[ "ops" := "https://open.feishu.cn/open-apis/bot/v2/hook/xxxxx" ]} |}.

Definition exampleMessage (channel sendTo msgType : string) (content : any)
    : Message :=
  {| ID := "m-1"; SendChannelName := channel; SendTo := sendTo;
     MsgType := msgType; MsgLevel := ""; Title := ""; Content := content |}.

(** A configuration with one webhook, ["ops"], whose default channel,
    ["oops"], names no target. *)
Definition misdirected : Config :=
  {| Enabled := true;
     DefaultSendChannelName := "oops";
     ChannelSize := 0;
     PoolSize := 0;
     BotWebhooks :=
       {[ "ops" := "https://open.feishu.cn/open-apis/bot/v2/hook/xxxxx" ]};
     Larks := ∅ |}.

(** A configuration with another default channel. *)
Definition withDefault (config : Config) (name : string) : Config :=
  {| Enabled := Enabled config;
     DefaultSendChannelName := name;
     ChannelSize := ChannelSize config;
     PoolSize := PoolSize config;
     BotWebhooks := BotWebhooks config;
     Larks := Larks config |}.

(** The name under which the code looks the reset header up. *)
Definition resetHeader : string := "x-ogw-ratelimit-reset".

(** The keys of a header map are canonical, as [net/http] builds it. *)
Definition canonicalKeys (headers : gmap string (list string)) : Prop :=
  forall (k : string) (values : list string),
    headers !! k = Some values -> textproto.CanonicalMIMEHeaderKey k = k.

(** The number of seconds the executor waits after a 429 carrying the
    given values of the reset header. *)
Definition resetSeconds (header : option (list string)) : Z :=
  match header with
  | Some (h :: _) => default 60 (strconv.Atoi h)
  | _ => 60
  end.

(** The state once an event has been recorded. *)
Definition record (e : event) (s : St) : St := snd (emit e s).

(** The state once [time.Sleep(d)] has returned. *)
Definition asleep (d : Z) (s : St) : St := snd (Sleep d s).

(** The state once [n.cache.SetString(key, val, ttl)] has returned. *)
Definition cached (key val : string) (ttl : Z) (s : St) : St :=
  snd (cache_SetString key val ttl s).

(** Time passing between two calls: the clock moves by [d]. *)
Definition wait (d : Z) : M unit :=
  fun s => (tt, {| clock := clock s + d; trace := trace s; buckets := buckets s;
                   messages := messages s; msgID := msgID s |}).

(** [getToken] called once after each of the given waits. *)
Fixpoint resolveAfter {P : Platform} (appID appSecret appTokenAPI : string)
    (waits : list Z) : M (list (res string)) :=
  match waits with
  | [] => ret []
  | d :: rest =>
      _ <- wait d ;;
      r <- getToken appID appSecret appTokenAPI ;;
      rs <- resolveAfter appID appSecret appTokenAPI rest ;;
      ret (r :: rs)
  end.

(** A string has the shape of a layout: a digit where the layout has [d],
    and the character of the layout elsewhere. *)
Fixpoint layout (pattern s : string) : bool :=
  match pattern, s with
  | EmptyString, EmptyString => true
  | String p pattern', String c s' =>
      (if Ascii.eqb p "d" then strconv.is_digit c else Ascii.eqb p c)
      && layout pattern' s'
  | _, _ => false
  end.

(** ** A platform for the examples

    A codec that knows a handful of response bodies, a fixed zone
    (UTC+8), and a pool that refuses non-positive sizes; the server is a
    parameter. *)

Definition issued (token expire : string) : string :=
  quoted "{'code':0,'msg':'ok','app_access_token':'" ++ token
  ++ quoted "','expire':" ++ expire ++ "}".

Definition refused : string := quoted "{'code':10003,'msg':'invalid param'}".

Definition delivered : string := quoted "{'code':0,'msg':'success'}".

Definition issuedResp (token : string) (expire : Z) : appTokenResp.t :=
  {| appTokenResp.Code := 0; appTokenResp.Msg := "ok";
     appTokenResp.AppAccessToken := token; appTokenResp.Expire := expire |}.

Definition exampleTokenCodec (body : string) : res appTokenResp.t :=
  if String.eqb body (issued "t-xxxxxxx" "300") then Ok (issuedResp "t-xxxxxxx" 300)
  else if String.eqb body (issued "t-xxxxxxx" "60") then Ok (issuedResp "t-xxxxxxx" 60)
  else if String.eqb body (issued "" "300") then Ok (issuedResp "" 300)
  else if String.eqb body (issued "" "60") then Ok (issuedResp "" 60)
  else if String.eqb body (issued "t-xxxxxxx" "-9223372036854775808")
  then Ok (issuedResp "t-xxxxxxx" int64_min)
  else if String.eqb body refused then
    Ok {| appTokenResp.Code := 10003; appTokenResp.Msg := "invalid param";
          appTokenResp.AppAccessToken := ""; appTokenResp.Expire := 0 |}
  else Err (errors_New "invalid character").

Definition exampleMessageCodec (body : string) : res messageResp.t :=
  if String.eqb body delivered then
    Ok {| messageResp.Code := 0; messageResp.Msg := "success" |}
  else if String.eqb body refused then
    Ok {| messageResp.Code := 10003; messageResp.Msg := "invalid param" |}
  else Err (errors_New "invalid character").

Definition examplePlatform (server : list event -> Z -> Request.t -> outcome)
    : Platform :=
  {| net := server;
     json_Marshal := fun v =>
       match v with
       | Func => Err (errors_New "json: unsupported type")
       | _ => Ok "{}"
       end;
     json_Unmarshal_map := fun text => Ok {[ "text" := Str text ]};
     json_Unmarshal_appTokenResp := exampleTokenCodec;
     json_Unmarshal_messageResp := exampleMessageCodec;
     zoneOffset := fun _ => 28800;
     hostname := "host";
     GOMAXPROCS := 8;
     NewPoolWithFunc := fun size =>
       if size <=? 0 then Some (errors_New "invalid size for pool") else None |}.

(** A server that answers every request with the same response. *)
Definition constantServer (status : Z) (body : string)
    (headers : gmap string (list string)) : list event -> Z -> Request.t -> outcome :=
  fun _ _ _ =>
    Reply {| Response.StatusCode := status; Response.Body := body;
             Response.Headers := headers |}.

(** A server no connection reaches. *)
Definition unreachable : list event -> Z -> Request.t -> outcome :=
  fun _ _ _ => TransportError (errors_New "dial tcp: connection refused").

(** A state at 2023-11-14 22:13:20 UTC with nothing cached or queued. *)
Definition exampleState : St :=
  {| clock := 1700000000000000000;
     trace := [];
     buckets := ∅;
     messages := {| buf := []; capacity := 80; closed := false |};
     msgID := msgid.NewMessageID "host" 1700000000000000000 |}.

(** Two resolves in a row for one application, against a server that
    answers every request with the given body. *)
Definition resolveTwice (body : string) : list (res string) * St :=
  resolveAfter (P := examplePlatform (constantServer 200 body ∅))
    "cli_xxxxxx" "xxxxxxx" "https://open.feishu.cn/token" [0; 0] exampleState.

(** A qualifying message whose content is a map. *)
Definition mapMessage : Message :=
  {| ID := "m-1"; SendChannelName := "ops"; SendTo := ""; MsgType := "text";
     MsgLevel := "error"; Title := "Build";
     Content := Obj {[ "text" := Str "build failed" ]} |}.

(** ** Further entry points, observations and examples *)

(** A server that answers 429 to the first [k] requests of a history and
    the given response from then on. *)
Definition flakyServer (k : nat) (resp : Response.t)
    : list event -> Z -> Request.t -> outcome :=
  fun tr _ _ =>
    if (length (requests tr) <? k)%nat
    then Reply {| Response.StatusCode := 429; Response.Body := "";
                  Response.Headers := ∅ |}
    else Reply resp.

(** The server answers 429 to the next [k] attempts at [request] made
    from the history [base], and [resp] to the one after. *)
Definition throttled {P : Platform} (request : Request.t) (base : list event)
    (k : nat) (resp : Response.t) : Prop :=
  forall (ext : list event) (t : Z),
    ((length (requests ext) < k)%nat ->
     exists r, net (base ++ ext) t request = Reply r
               /\ Response.StatusCode r = 429)
    /\ (length (requests ext) = k -> net (base ++ ext) t request = Reply resp).

(** [Token] *)
Definition Token {P : Platform} (n : notify) (appName : string) : M (res string) :=
  match apps n !! appName with
  | None => ret (Err (Errorf_s "lark app %s not found" appName))
  | Some a => callToken (token a)
  end.

(** [SendBotMessage] *)
Definition SendBotMessage {P : Platform} (botName msgType : string) (content : any)
    : M submitted :=
  SubmitMessage
    {| ID := ""; SendChannelName := botName; SendTo := ""; MsgType := msgType;
       MsgLevel := ""; Title := ""; Content := content |}.

(** [SendAppMessage] *)
Definition SendAppMessage {P : Platform} (appName msgType sendTo : string)
    (content : any) : M submitted :=
  SubmitMessage
    {| ID := ""; SendChannelName := appName; SendTo := sendTo; MsgType := msgType;
       MsgLevel := ""; Title := ""; Content := content |}.

(** The value [&templateCardData{...}] that [SendTemplateCardMessage]
    builds, by the JSON names of its fields. *)
Definition templateCardData (templateID : string) (content : any) : any :=
  Obj {[ "type" := Str "template";
         "data" := Obj {[ "template_id" := Str templateID;
                          "template_variable" := content ]} ]}.

(** [SendTemplateCardMessage] *)
Definition SendTemplateCardMessage {P : Platform}
    (appName templateID sendTo : string) (content : any) : M submitted :=
  SubmitMessage
    {| ID := ""; SendChannelName := appName; SendTo := sendTo;
       MsgType := "interactive"; MsgLevel := ""; Title := "";
       Content := templateCardData templateID content |}.

(** A configuration with a webhook and two applications, one with its
    own token function. *)
Definition exampleConfig : Config :=
  {| Enabled := true;
     DefaultSendChannelName := "test_bot_1";
     ChannelSize := 0;
     PoolSize := 0;
     BotWebhooks :=
       {[ "test_bot_1" := "https://open.feishu.cn/open-apis/bot/v2/hook/xxxxx" ]};
     Larks :=
       {[ "lark_1" := {| Lark.AppType := "lark"; Lark.Token := None;
                         Lark.AppID := "cli_xxxxx"; Lark.AppSecret := "xxxxxx" |};
          "feishu_2" := {| Lark.AppType := "feishu";
                           Lark.Token := Some (Ok "t-xxxxxxx");
                           Lark.AppID := ""; Lark.AppSecret := "" |} ]} |}.


(** The state [s'] comes after [s]: the queue and the id generator are
    the same, the clock has not gone back, and the history has only been
    added to, every request added being a POST. *)
Definition after (s s' : St) : Prop :=
  messages s' = messages s
  /\ msgID s' = msgID s
  /\ clock s <= clock s'
  /\ exists ext,
       trace s' = (trace s ++ ext)%list
       /\ Forall (fun r => Request.Method r = "POST") (requests ext).

(** The message types for which [sendBotWebhookMessage] asserts that the
    content is a string, and those for which [sendLarkAppMessage] does. *)
Definition botStringTypes : list string := ["text"; "share_chat"; "image"].

Definition appStringTypes : list string :=
  ["text"; "image"; "audio"; "file"; "media"; "sticker"; "share_chat";
   "share_user"].

(** The message types [sendLarkAppMessage] has a case for. *)
Definition appTypes : list string :=
  (appStringTypes ++ ["post"; "interactive"; "system"])%list.

(** [k] calls of [New] on an [*ID], one after the other: the ids
    returned, oldest first, unless one of the calls does not return. *)
Fixpoint successive (k : nat) (m : msgid.ID) : option (list string * msgid.ID) :=
  match k with
  | O => Some ([], m)
  | S k' =>
      match msgid.New m with
      | None => None
      | Some (id, m') =>
          match successive k' m' with
          | None => None
          | Some (ids, m'') => Some (id :: ids, m'')
          end
      end
  end.

(** The value of a digit of [strconv]'s alphabet. *)
Definition digitValue (c : ascii) : Z :=
  let n := Z.of_nat (nat_of_ascii c) in
  if n <? 58 then n - 48 else n - 87.

(** The number a string of digits stands for in [base], continuing from
    [acc]. *)
Fixpoint digitsValue (base : Z) (acc : Z) (s : string) : Z :=
  match s with
  | EmptyString => acc
  | String c rest => digitsValue base (acc * base + digitValue c) rest
  end.

(** ** Package [ding] ([ding_talk.go]) *)

Module ding.

(** [type Config struct] *)
Record Config : Type := {
  Enabled : bool;
  ChannelSize : Z;
  PoolSize : Z;
  IdleSize : Z
}.

(** [type Message struct] *)
Record Message : Type := { ID : string; Title : string; Content : string }.

(** [type notify struct]; the channel [messages] is its buffer and its
    capacity.  Nothing in the package closes it. *)
Record notify : Type := {
  msgID : msgid.ID;
  messages : list Message;
  capacity : Z
}.

(** The ways a call of [SubmitMessage] can go. *)
Inductive submitted : Type :=
| Returned (msgID : string)
| Parked (pending : Message)   (* blocked in [n.messages <- message] *)
| Hung.                        (* blocked inside [n.msgID.New()] *)

(** [New]; [make(chan Message, size)] panics on a negative size.  The
    error returned is always [nil]. *)
Definition New (hostname : string) (now : Z) (config : Config) : res notify :=
  if ChannelSize config <? 0 then Panic "makechan: size out of range"
  else Ok {| msgID := msgid.NewMessageID hostname now;
             messages := [];
             capacity := ChannelSize config |}.

(** [StartProcessor] and [Close] have empty bodies. *)
Definition StartProcessor (n : notify) : notify := n.

Definition Close (n : notify) : notify := n.

(** [SubmitMessage] *)
Definition SubmitMessage (message : Message) (n : notify) : submitted * notify :=
  let assigned :=
    if String.eqb (ID message) "" then msgid.New (msgID n)
    else Some (ID message, msgID n) in
  match assigned with
  | None => (Hung, n)
  | Some (id, g) =>
      let message := {| ID := id; Title := Title message;
                        Content := Content message |} in
      if Z.of_nat (length (messages n)) <? capacity n then
        (Returned (ID message),
         {| msgID := g; messages := messages n ++ [message];
            capacity := capacity n |})
      else
        (Parked message,
         {| msgID := g; messages := messages n; capacity := capacity n |})
  end.

(** The calls a program can make on a [Notify]. *)
Inductive call : Type :=
| Submit (message : Message)
| Start
| Shut.

(** A sequence of calls, each in a goroutine of its own, so that a call
    that blocks does not keep the later ones from being made; the
    outcomes of the submissions, oldest first. *)
Fixpoint run (calls : list call) (n : notify) : list submitted * notify :=
  match calls with
  | [] => ([], n)
  | Submit message :: rest =>
      let (r, n1) := SubmitMessage message n in
      let (rs, n2) := run rest n1 in
      (r :: rs, n2)
  | Start :: rest => run rest (StartProcessor n)
  | Shut :: rest => run rest (Close n)
  end.

(** The number of submissions that returned. *)
Definition returned (outcomes : list submitted) : nat :=
  length (List.filter (fun r => match r with Returned _ => true | _ => false end)
            outcomes).

End ding.

(** * Theorems *)

(** ** Machine integers *)

Lemma wrap64_id (z : Z) : in_int64 z -> wrap64 z = z.
Proof.
  unfold in_int64, int64_min, int64_max, wrap64. intros Hz.
  rewrite Z.mod_small; lia.
Qed.

Lemma seconds_exact (n : Z) :
  -9223372036 <= n <= 9223372036 -> time.seconds n = n * 1000000000.
Proof.
  intros Hn. unfold time.seconds, time.Second.
  apply wrap64_id. unfold in_int64, int64_min, int64_max. lia.
Qed.

(** ** The cache *)

Section Cache.

Variables (key val : string) (b : gmap string cache.item).

Lemma SetString_lookup (now ttl : Z) :
  cache.SetString now key val ttl b !! key
  = Some (cache.Item val
            (if 0 <? ttl then time.UnixNano (now + time.seconds ttl) else 0)).
Proof. unfold cache.SetString. by rewrite lookup_insert_eq. Qed.

(** Within the range of the clock, a positive lifetime is stored as the
    instant [now + ttl] seconds. *)
Lemma SetString_expiry (now ttl : Z) :
  1 <= ttl -> 0 <= now -> now + ttl * 1000000000 <= int64_max ->
  cache.SetString now key val ttl b !! key
  = Some (cache.Item val (now + ttl * 1000000000)).
Proof.
  intros Httl Hnow Hmax. rewrite SetString_lookup.
  replace (0 <? ttl) with true by lia.
  unfold int64_max in Hmax.
  rewrite seconds_exact by lia.
  unfold time.UnixNano. rewrite wrap64_id; [done|].
  unfold in_int64, int64_min, int64_max. lia.
Qed.

(** A lifetime of zero or less is stored as "no expiration". *)
Lemma SetString_forever (now ttl : Z) :
  ttl <= 0 ->
  cache.SetString now key val ttl b !! key = Some (cache.Item val 0).
Proof.
  intros Httl. rewrite SetString_lookup.
  by replace (0 <? ttl) with false by lia.
Qed.

Lemma GetString_absent (now : Z) :
  b !! key = None ->
  cache.GetString now key b = (("", Some cache.ErrKeyNotFound), b).
Proof. intros Hb. unfold cache.GetString. by rewrite Hb. Qed.

Lemma GetString_forever (now : Z) :
  b !! key = Some (cache.Item val 0) ->
  cache.GetString now key b = ((val, None), b).
Proof. intros Hb. unfold cache.GetString. by rewrite Hb. Qed.

Lemma GetString_live (now exp : Z) :
  b !! key = Some (cache.Item val exp) -> in_int64 now -> now <= exp ->
  cache.GetString now key b = ((val, None), b).
Proof.
  intros Hb Hnow Hle. unfold cache.GetString. rewrite Hb. simpl.
  unfold time.UnixNano. rewrite wrap64_id by done.
  replace (exp <? now) with false by lia.
  by rewrite andb_false_r.
Qed.

Lemma GetString_expired (now exp : Z) :
  b !! key = Some (cache.Item val exp) -> in_int64 now -> exp <> 0 -> exp < now ->
  cache.GetString now key b = (("", Some cache.ErrKeyExpired), delete key b).
Proof.
  intros Hb Hnow Hexp Hlt. unfold cache.GetString. rewrite Hb. simpl.
  unfold time.UnixNano. rewrite wrap64_id by done.
  replace (exp =? 0) with false by lia.
  by replace (exp <? now) with true by lia.
Qed.

End Cache.

(** C5, as amended.  An entry set with lifetime 0 is returned by a get at
    any instant; an entry set with a lifetime of [ttl >= 1] seconds is
    reported expired by a get MORE than [ttl] seconds later (the clock
    staying in the [int64] range), which deletes it, so that every get
    after that reports "not found"; a key that is not in the cache is
    reported "not found". *)
Theorem C5_cache_semantics (key val : string) (b : gmap string cache.item)
    (now later later' ttl : Z) :
  cache.GetString later key (cache.SetString now key val 0 b)
    = ((val, None), cache.SetString now key val 0 b)
  /\ (1 <= ttl -> 0 <= now -> now + ttl * 1000000000 < later <= int64_max ->
      cache.GetString later key (cache.SetString now key val ttl b)
        = (("", Some cache.ErrKeyExpired), delete key b)
      /\ cache.GetString later' key (delete key b)
        = (("", Some cache.ErrKeyNotFound), delete key b))
  /\ (b !! key = None ->
      cache.GetString later key b = (("", Some cache.ErrKeyNotFound), b)).
Proof.
  split; [|split].
  - apply GetString_forever, SetString_forever. lia.
  - intros Httl Hnow Hlater. split.
    + erewrite GetString_expired.
      * unfold cache.SetString. by rewrite delete_insert_eq.
      * apply SetString_expiry; lia.
      * unfold in_int64, int64_min, int64_max in *. lia.
      * lia.
      * lia.
    + apply GetString_absent, lookup_delete_eq.
  - apply GetString_absent.
Qed.

Lemma C5_cache_semantics_witness :
  cache.GetString 1700000002000000000 "k"
    (cache.SetString 1700000000000000000 "k" "v" 1 ∅)
  = (("", Some cache.ErrKeyExpired), delete "k" ∅).
Proof.
  apply (C5_cache_semantics "k" "v" ∅
           1700000000000000000 1700000002000000000 0 1);
    unfold int64_max; lia.
Defined.

(** C5 as stated fails: a get exactly [ttl] seconds after the set, which
    is "at least [ttl] seconds" later, still returns the value and does
    not report "expired". *)
Lemma C5_not_expired_at_ttl :
  1700000000000000000 + 1 * 1000000000 <= 1700000001000000000
  /\ fst (cache.GetString 1700000001000000000 "k"
            (cache.SetString 1700000000000000000 "k" "v" 1 ∅))
     = ("v", None)
  /\ fst (cache.GetString 1700000001000000000 "k"
            (cache.SetString 1700000000000000000 "k" "v" 1 ∅))
     <> ("", Some cache.ErrKeyExpired).
Proof. split; [lia|]. split; [reflexivity|discriminate]. Qed.

(** ** Histories *)

Lemma requests_app (tr tr' : list event) :
  requests (tr ++ tr') = (requests tr ++ requests tr')%list.
Proof. apply omap_app. Qed.

Lemma sleeps_app (tr tr' : list event) :
  sleeps (tr ++ tr') = (sleeps tr ++ sleeps tr')%list.
Proof. apply omap_app. Qed.

Lemma trace_record (e : event) (s : St) : trace (record e s) = (trace s ++ [e])%list.
Proof. reflexivity. Qed.

Lemma trace_asleep (d : Z) (s : St) : trace (asleep d s) = (trace s ++ [Slept d])%list.
Proof. reflexivity. Qed.

Lemma clock_asleep (d : Z) (s : St) : clock (asleep d s) = clock s + Z.max 0 d.
Proof. reflexivity. Qed.

Lemma trace_cached (key val : string) (ttl : Z) (s : St) :
  trace (cached key val ttl s) = trace s.
Proof. reflexivity. Qed.

(** ** The request executor *)

Section Executor.

Context {P : Platform}.
Variables (request : Request.t) (maxRetries : Z).

Lemma executeRequest_reply (s : St) (resp : Response.t) :
  net (trace s) (clock s) request = Reply resp ->
  executeRequest request s = (Ok resp, record (Sent request) s).
Proof. intros Hnet. unfold executeRequest. by rewrite Hnet. Qed.

Lemma executeRequest_failure (s : St) (e : error) :
  net (trace s) (clock s) request = TransportError e ->
  executeRequest request s = (Err e, record (Sent request) s).
Proof. intros Hnet. unfold executeRequest. by rewrite Hnet. Qed.

(** One turn of the loop that meets a transport error. *)
Lemma retryLoop_failure (left : nat) (retry : Z) (s : St) (e : error) :
  net (trace s) (clock s) request = TransportError e ->
  retryLoop request maxRetries (S left) retry s
  = (Err (Errorf_w "failed to execute request: %w" e), record (Sent request) s).
Proof.
  intros Hnet. simpl. unfold bind.
  by rewrite (executeRequest_failure _ _ Hnet).
Qed.

(** One turn of the loop that meets a status other than 429. *)
Lemma retryLoop_answer (left : nat) (retry : Z) (s : St) (resp : Response.t) :
  net (trace s) (clock s) request = Reply resp ->
  Response.StatusCode resp <> 429 ->
  retryLoop request maxRetries (S left) retry s
  = (Ok resp, record (Sent request) s).
Proof.
  intros Hnet Hstatus. simpl. unfold bind.
  rewrite (executeRequest_reply _ _ Hnet).
  by replace (Response.StatusCode resp =? 429) with false by lia.
Qed.

(** One turn of the loop that meets a 429 with retries left. *)
Lemma retryLoop_retry (left : nat) (retry : Z) (s : St) (resp : Response.t) :
  net (trace s) (clock s) request = Reply resp ->
  Response.StatusCode resp = 429 ->
  retry < maxRetries ->
  retryLoop request maxRetries (S left) retry s
  = retryLoop request maxRetries left (retry + 1)
      (asleep
         (time.seconds
            (extractResetTime
               (default [] (Response.Headers resp !! "x-ogw-ratelimit-reset"))))
         (record (Sent request) s)).
Proof.
  intros Hnet Hstatus Hretry. simpl. unfold bind.
  rewrite (executeRequest_reply _ _ Hnet).
  replace (Response.StatusCode resp =? 429) with true by lia.
  by replace (retry <? maxRetries) with true by lia.
Qed.

(** One turn of the loop that meets a 429 with no retry left. *)
Lemma retryLoop_exhausted (left : nat) (retry : Z) (s : St) (resp : Response.t) :
  net (trace s) (clock s) request = Reply resp ->
  Response.StatusCode resp = 429 ->
  maxRetries <= retry ->
  retryLoop request maxRetries (S left) retry s
  = (Err (Errorf_d "rate limit exceeded after %d retries" maxRetries),
     record (Sent request) s).
Proof.
  intros Hnet Hstatus Hretry. simpl. unfold bind.
  rewrite (executeRequest_reply _ _ Hnet).
  replace (Response.StatusCode resp =? 429) with true by lia.
  by replace (retry <? maxRetries) with false by lia.
Qed.

(** Against a server that always answers 429, the loop entered with
    [left] turns to go makes [left] requests, sleeps between them, and
    ends on the rate-limit error. *)
Lemma retryLoop_rate_limited :
  (forall tr t, exists resp,
      net tr t request = Reply resp /\ Response.StatusCode resp = 429) ->
  forall (left : nat) (retry : Z) (s : St),
    Z.of_nat (S left) = maxRetries + 1 - retry ->
    exists s',
      retryLoop request maxRetries (S left) retry s
      = (Err (Errorf_d "rate limit exceeded after %d retries" maxRetries), s')
      /\ requests (trace s') = (requests (trace s) ++ replicate (S left) request)%list
      /\ length (sleeps (trace s')) = (length (sleeps (trace s)) + left)%nat.
Proof.
  intros Hserver left. induction left as [|left IH]; intros retry s Hleft.
  - destruct (Hserver (trace s) (clock s)) as (resp & Hnet & Hstatus).
    exists (record (Sent request) s). split; [|split].
    + apply (retryLoop_exhausted _ _ _ _ Hnet Hstatus). lia.
    + by rewrite trace_record, requests_app.
    + rewrite trace_record, sleeps_app. simpl. rewrite app_nil_r. lia.
  - destruct (Hserver (trace s) (clock s)) as (resp & Hnet & Hstatus).
    rewrite (retryLoop_retry _ _ _ _ Hnet Hstatus) by lia.
    edestruct (IH (retry + 1)) as (s' & Hrun & Hreq & Hsleep); [lia|].
    exists s'. split; [exact Hrun|]. split.
    + rewrite Hreq, trace_asleep, trace_record, !requests_app. simpl.
      rewrite app_nil_r, <- app_assoc. done.
    + rewrite Hsleep, trace_asleep, trace_record, !sleeps_app. simpl.
      rewrite app_nil_r, length_app. simpl. lia.
Qed.

(** The exit of the [for] loop, and the [return] after it, are never
    reached: the loop is entered with at least one turn to go. *)
Lemma sendLarkAPIRequest_turns :
  exists left : nat,
    sendLarkAPIRequest request maxRetries
    = retryLoop request (if maxRetries <=? 0 then 3 else maxRetries) (S left) 0.
Proof.
  unfold sendLarkAPIRequest.
  exists (Z.to_nat (if maxRetries <=? 0 then 3 else maxRetries)).
  f_equal. destruct (Z.leb_spec maxRetries 0); [reflexivity|].
  rewrite Z2Nat.inj_add by lia. simpl. lia.
Qed.

End Executor.

(** C2.  Against a server that answers 429 to every attempt, the executor
    makes [retries + 1] requests, where [retries] is the bound in force
    (the argument, or 3 when the argument is not positive), and then
    returns the rate-limit error; with the argument 3 that is 4 requests. *)
Theorem C2_rate_limit_exhaustion {P : Platform} (request : Request.t)
    (maxRetries : Z) (s : St) :
  (forall tr t, exists resp,
      net tr t request = Reply resp /\ Response.StatusCode resp = 429) ->
  let retries := if maxRetries <=? 0 then 3 else maxRetries in
  exists s',
    sendLarkAPIRequest request maxRetries s
    = (Err (Errorf_d "rate limit exceeded after %d retries" retries), s')
    /\ requests (trace s')
       = (requests (trace s) ++ replicate (Z.to_nat (retries + 1)) request)%list
    /\ Z.of_nat (length (sleeps (trace s')))
       = Z.of_nat (length (sleeps (trace s))) + retries
    /\ (maxRetries = 3 ->
        requests (trace s') = (requests (trace s) ++ replicate 4 request)%list).
Proof.
  intros Hserver retries.
  assert (1 <= retries) as Hpos by (subst retries; destruct (Z.leb_spec maxRetries 0); lia).
  destruct (retryLoop_rate_limited request retries Hserver
              (Z.to_nat retries) 0 s) as (s' & Hrun & Hreq & Hsleep); [lia|].
  exists s'. unfold sendLarkAPIRequest. fold retries.
  replace (Z.to_nat (retries + 1)) with (S (Z.to_nat retries)) by lia.
  split; [exact Hrun|]. split; [exact Hreq|]. split; [lia|].
  intros ->. exact Hreq.
Qed.

Lemma C2_rate_limit_exhaustion_witness :
  exists s',
    sendLarkAPIRequest
      (P := examplePlatform (constantServer 429 "" ∅))
      (tokenRequest "cli_xxxxxx" "xxxxxxx" "https://open.feishu.cn/token") 3
      exampleState
    = (Err (Errorf_d "rate limit exceeded after %d retries" 3), s')
    /\ length (requests (trace s')) = 4%nat.
Proof.
  destruct (C2_rate_limit_exhaustion
              (P := examplePlatform (constantServer 429 "" ∅))
              (tokenRequest "cli_xxxxxx" "xxxxxxx" "https://open.feishu.cn/token")
              3 exampleState) as (s' & Hrun & Hreq & _).
  - intros tr t. eexists. split; reflexivity.
  - exists s'. split; [exact Hrun|]. rewrite Hreq. reflexivity.
Defined.

(** C8.  When the transport fails, the executor returns the transport
    error at once: that request is the last event of the call, with no
    sleep and no further request, whatever the retry bound and whichever
    turn of the loop it is. *)
Theorem C8_transport_error_no_retry {P : Platform} (request : Request.t)
    (maxRetries : Z) (s : St) (e : error) :
  net (trace s) (clock s) request = TransportError e ->
  sendLarkAPIRequest request maxRetries s
    = (Err (Errorf_w "failed to execute request: %w" e), record (Sent request) s)
  /\ (forall (left : nat) (retry : Z),
        retryLoop request maxRetries (S left) retry s
        = (Err (Errorf_w "failed to execute request: %w" e),
           record (Sent request) s))
  /\ requests (trace (record (Sent request) s)) = (requests (trace s) ++ [request])%list
  /\ sleeps (trace (record (Sent request) s)) = sleeps (trace s)
  /\ clock (record (Sent request) s) = clock s.
Proof.
  intros Hnet. split; [|split; [|split; [|split]]].
  - destruct (sendLarkAPIRequest_turns request maxRetries) as (left & ->).
    by apply retryLoop_failure.
  - intros left retry. by apply retryLoop_failure.
  - by rewrite trace_record, requests_app.
  - rewrite trace_record, sleeps_app. apply app_nil_r.
  - reflexivity.
Qed.

Lemma C8_transport_error_no_retry_witness :
  sendLarkAPIRequest (P := examplePlatform unreachable)
    (botRequest "https://open.feishu.cn/open-apis/bot/v2/hook/xxxxx" ∅) 3
    exampleState
  = (Err (Errorf_w "failed to execute request: %w"
            (errors_New "dial tcp: connection refused")),
     record
       (Sent (botRequest "https://open.feishu.cn/open-apis/bot/v2/hook/xxxxx" ∅))
       exampleState).
Proof.
  apply (C8_transport_error_no_retry (P := examplePlatform unreachable)).
  reflexivity.
Defined.

(** ** The wait after a 429 *)

Lemma extractResetTime_missing : extractResetTime [] = 60.
Proof. reflexivity. Qed.

Lemma extractResetTime_parsed (h : string) (rest : list string) (n : Z) :
  strconv.Atoi h = Some n -> extractResetTime (h :: rest) = n.
Proof. intros Hh. simpl. by rewrite Hh. Qed.

Lemma extractResetTime_malformed (h : string) (rest : list string) :
  strconv.Atoi h = None -> extractResetTime (h :: rest) = 60.
Proof. intros Hh. simpl. by rewrite Hh. Qed.

Lemma extractResetTime_resetSeconds (header : option (list string)) :
  extractResetTime (default [] header) = resetSeconds header.
Proof.
  by destruct header as [[|h rest]|].
Qed.

(** When a 429 arrives and retries remain, the executor sleeps, and goes
    on to the next attempt.  The sleep lasts the integer found under the
    key ["x-ogw-ratelimit-reset"] of the header map when there is one and
    its first value parses, and 60 seconds otherwise; a number [n] of
    seconds is the [Duration] [n * 1000000000] for every [n] this product
    does not take out of [int64].  The values ["5"], the empty string and
    ["not-a-number"] give 5, 60 and 60 seconds. *)
Lemma rate_limit_wait {P : Platform} (request : Request.t)
    (maxRetries retry : Z) (left : nat) (s : St) (resp : Response.t) :
  net (trace s) (clock s) request = Reply resp ->
  Response.StatusCode resp = 429 ->
  retry < maxRetries ->
  let n := resetSeconds (Response.Headers resp !! resetHeader) in
  retryLoop request maxRetries (S left) retry s
    = retryLoop request maxRetries left (retry + 1)
        (asleep (time.seconds n) (record (Sent request) s))
  /\ trace (asleep (time.seconds n) (record (Sent request) s))
     = (trace s ++ [Sent request; Slept (time.seconds n)])%list
  /\ (-9223372036 <= n <= 9223372036 -> time.seconds n = n * 1000000000)
  /\ (forall (h : string) (rest : list string) (k : Z),
        Response.Headers resp !! resetHeader = Some (h :: rest) ->
        strconv.Atoi h = Some k -> n = k)
  /\ (forall (h : string) (rest : list string),
        Response.Headers resp !! resetHeader = Some (h :: rest) ->
        strconv.Atoi h = None -> n = 60)
  /\ (Response.Headers resp !! resetHeader = None -> n = 60)
  /\ resetSeconds (Some ["5"]) = 5
  /\ resetSeconds (Some [""]) = 60
  /\ resetSeconds (Some ["not-a-number"]) = 60.
Proof.
  intros Hnet Hstatus Hretry n.
  split; [|split; [|split; [|split; [|split; [|split]]]]].
  - rewrite (retryLoop_retry _ _ _ _ _ _ Hnet Hstatus Hretry).
    by rewrite extractResetTime_resetSeconds.
  - rewrite trace_asleep, trace_record, <- app_assoc. reflexivity.
  - apply seconds_exact.
  - intros h rest k Hh Hk. subst n. rewrite Hh. simpl. by rewrite Hk.
  - intros h rest Hh Hk. subst n. rewrite Hh. simpl. by rewrite Hk.
  - intros Hh. subst n. by rewrite Hh.
  - repeat split.
Qed.

(** The name the code looks up is not the canonical form of a name. *)
Lemma resetHeader_canonical :
  textproto.CanonicalMIMEHeaderKey resetHeader = "X-Ogw-Ratelimit-Reset".
Proof. reflexivity. Qed.

(** In a header map with canonical keys the lookup of the code finds
    nothing, whatever the map holds. *)
Lemma canonicalKeys_miss (headers : gmap string (list string)) :
  canonicalKeys headers -> headers !! resetHeader = None.
Proof.
  intros Hkeys. destruct (headers !! resetHeader) as [values|] eqn:Hfound;
    [|reflexivity].
  apply Hkeys in Hfound. discriminate.
Qed.

(** So, for a 429 whose header map has canonical keys, the wait is 60
    seconds whatever the server sent. *)
Lemma canonicalKeys_wait {P : Platform} (request : Request.t)
    (maxRetries retry : Z) (left : nat) (s : St) (resp : Response.t) :
  net (trace s) (clock s) request = Reply resp ->
  Response.StatusCode resp = 429 ->
  retry < maxRetries ->
  canonicalKeys (Response.Headers resp) ->
  retryLoop request maxRetries (S left) retry s
  = retryLoop request maxRetries left (retry + 1)
      (asleep 60000000000 (record (Sent request) s)).
Proof.
  intros Hnet Hstatus Hretry Hkeys.
  destruct (rate_limit_wait request maxRetries retry left s resp
              Hnet Hstatus Hretry) as (Hrun & _).
  rewrite Hrun. fold resetHeader. by rewrite (canonicalKeys_miss _ Hkeys).
Qed.

(** C6 fails on the code.  A 429 that carries the reset header with the
    value 5, filed under the canonical form of its name, is followed by a
    sleep of 60 seconds, not 5: with one retry allowed, the executor
    sends the request, sleeps 60 seconds, sends it again and gives up. *)
Theorem C6_reset_header_not_found :
  let P := examplePlatform
             (constantServer 429 "" {[ "X-Ogw-Ratelimit-Reset" := ["5"] ]}) in
  let request := botRequest "https://open.feishu.cn/open-apis/bot/v2/hook/xxxxx" ∅ in
  textproto.CanonicalMIMEHeaderKey "x-ogw-ratelimit-reset" = "X-Ogw-Ratelimit-Reset"
  /\ resetSeconds (Some ["5"]) = 5
  /\ sleeps (trace (snd (sendLarkAPIRequest request 1 exampleState)))
     = [60 * 1000000000]
  /\ length (requests (trace (snd (sendLarkAPIRequest request 1 exampleState))))
     = 2%nat.
Proof. repeat split. Qed.

(** ** Tokens *)

Lemma St_eta (s : St) :
  {| clock := clock s; trace := trace s; buckets := buckets s;
     messages := messages s; msgID := msgID s |} = s.
Proof. by destruct s. Qed.

Section Tokens.

Context {P : Platform}.
Variables (appID appSecret appTokenAPI : string).

Let key : string := tokenCacheKey appID.
Let issuance : Request.t := tokenRequest appID appSecret appTokenAPI.

(** The loop only adds to the history, and leaves the cache alone. *)
Lemma retryLoop_extends (request : Request.t) (maxRetries : Z) (left : nat)
    (retry : Z) (s : St) :
  exists ext,
    trace (snd (retryLoop request maxRetries left retry s)) = (trace s ++ ext)%list
    /\ buckets (snd (retryLoop request maxRetries left retry s)) = buckets s.
Proof.
  revert retry s. induction left as [|left IH]; intros retry s.
  - exists []. by rewrite app_nil_r.
  - destruct (net (trace s) (clock s) request) as [e|resp] eqn:Hnet.
    { rewrite (retryLoop_failure _ _ _ _ _ _ Hnet). by exists [Sent request]. }
    destruct (Z.eq_dec (Response.StatusCode resp) 429) as [Hstatus|Hstatus].
    2: { rewrite (retryLoop_answer _ _ _ _ _ _ Hnet Hstatus).
         by exists [Sent request]. }
    destruct (Z_lt_le_dec retry maxRetries) as [Hretry|Hretry].
    2: { rewrite (retryLoop_exhausted _ _ _ _ _ _ Hnet Hstatus Hretry).
         by exists [Sent request]. }
    rewrite (retryLoop_retry _ _ _ _ _ _ Hnet Hstatus Hretry).
    match goal with
    | |- context [retryLoop _ _ left ?r ?s0] =>
        destruct (IH r s0) as (ext & Htrace & Hbuckets)
    end.
    rewrite Htrace, Hbuckets, trace_asleep, trace_record, <- !app_assoc.
    by eexists.
Qed.

(** Every call of the loop with a turn to go starts with the request. *)
Lemma retryLoop_first (request : Request.t) (maxRetries : Z) (left : nat)
    (retry : Z) (s : St) :
  exists rest,
    trace (snd (retryLoop request maxRetries (S left) retry s))
    = (trace s ++ Sent request :: rest)%list
    /\ buckets (snd (retryLoop request maxRetries (S left) retry s)) = buckets s.
Proof.
  destruct (net (trace s) (clock s) request) as [e|resp] eqn:Hnet.
  { rewrite (retryLoop_failure _ _ _ _ _ _ Hnet). by exists []. }
  destruct (Z.eq_dec (Response.StatusCode resp) 429) as [Hstatus|Hstatus].
  2: { rewrite (retryLoop_answer _ _ _ _ _ _ Hnet Hstatus). by exists []. }
  destruct (Z_lt_le_dec retry maxRetries) as [Hretry|Hretry].
  2: { rewrite (retryLoop_exhausted _ _ _ _ _ _ Hnet Hstatus Hretry).
       by exists []. }
  rewrite (retryLoop_retry _ _ _ _ _ _ Hnet Hstatus Hretry).
  match goal with
  | |- context [retryLoop _ _ left ?r ?s0] =>
      destruct (retryLoop_extends request maxRetries left r s0)
        as (ext & Htrace & Hbuckets)
  end.
  rewrite Htrace, Hbuckets, trace_asleep, trace_record, <- !app_assoc.
  by eexists.
Qed.

Lemma sendLarkAPIRequest_first (request : Request.t) (maxRetries : Z) (s : St) :
  exists rest,
    trace (snd (sendLarkAPIRequest request maxRetries s))
    = (trace s ++ Sent request :: rest)%list
    /\ buckets (snd (sendLarkAPIRequest request maxRetries s)) = buckets s.
Proof.
  destruct (sendLarkAPIRequest_turns request maxRetries) as (left & ->).
  apply retryLoop_first.
Qed.

(** A resolve that finds a usable entry returns it and does nothing. *)
Lemma getToken_cached (s : St) (tok : string) (exp : Z) :
  buckets s !! key = Some (cache.Item tok exp) ->
  tok <> "" ->
  exp = 0 \/ (in_int64 (clock s) /\ clock s <= exp) ->
  getToken appID appSecret appTokenAPI s = (Ok tok, s).
Proof.
  intros Hentry Htok Hlive. unfold getToken, bind, cache_GetString.
  fold key.
  assert (cache.GetString (clock s) key (buckets s) = ((tok, None), buckets s))
    as ->.
  { destruct Hlive as [-> | [Hclock Hle]].
    - by apply GetString_forever.
    - by eapply GetString_live. }
  rewrite St_eta. simpl.
  apply String.eqb_neq in Htok. by rewrite Htok.
Qed.

(** A resolve that finds the entry expired asks the platform again. *)
Lemma getToken_expired (s : St) (tok : string) (exp : Z) :
  buckets s !! key = Some (cache.Item tok exp) ->
  in_int64 (clock s) -> exp <> 0 -> exp < clock s ->
  exists rest,
    trace (snd (getToken appID appSecret appTokenAPI s))
    = (trace s ++ Sent issuance :: rest)%list.
Proof.
  intros Hentry Hclock Hexp Hlt. unfold getToken, bind, cache_GetString.
  fold key.
  rewrite (GetString_expired _ _ _ _ _ Hentry Hclock Hexp Hlt). simpl.
  match goal with
  | |- context [sendLarkAPIRequest ?r 3 ?s0] =>
      destruct (sendLarkAPIRequest_first r 3 s0) as (rest & Htrace & _);
      destruct (sendLarkAPIRequest r 3 s0) as [[response|e|why] s1]
  end; simpl in Htrace; try by (exists rest).
  destruct (json_Unmarshal_appTokenResp (Response.Body response)) as [rs|e|why];
    try by (exists rest).
  destruct (negb (appTokenResp.Code rs =? 0)); by exists rest.
Qed.

(** A first resolve whose request is answered at once. *)
Lemma getToken_answered (s : St) (resp : Response.t) (rs : appTokenResp.t) :
  buckets s !! key = None ->
  net (trace s) (clock s) issuance = Reply resp ->
  Response.StatusCode resp <> 429 ->
  json_Unmarshal_appTokenResp (Response.Body resp) = Ok rs ->
  getToken appID appSecret appTokenAPI s
  = if appTokenResp.Code rs =? 0
    then (Ok (appTokenResp.AppAccessToken rs),
          cached key (appTokenResp.AppAccessToken rs)
            (wrap64 (appTokenResp.Expire rs - 100)) (record (Sent issuance) s))
    else (Err (Errorf_s "failed to obtain Lark App Token: %s" (appTokenResp.Msg rs)),
          record (Sent issuance) s).
Proof.
  intros Hnone Hnet Hstatus Hrs. unfold getToken, bind, cache_GetString.
  fold key. rewrite (GetString_absent _ _ _ Hnone), St_eta. simpl.
  destruct (sendLarkAPIRequest_turns (tokenRequest appID appSecret appTokenAPI) 3)
    as (left & ->).
  rewrite (retryLoop_answer _ _ _ _ _ _ Hnet Hstatus), Hrs.
  by destruct (appTokenResp.Code rs =? 0).
Qed.

(** Any number of resolves, at any instants, against an entry that does
    not expire: the token every time, and nothing else happens. *)
Lemma resolveAfter_forever (tok : string) (waits : list Z) (s : St) :
  buckets s !! key = Some (cache.Item tok 0) ->
  tok <> "" ->
  exists s',
    resolveAfter appID appSecret appTokenAPI waits s
    = (replicate (length waits) (Ok tok), s')
    /\ trace s' = trace s /\ buckets s' = buckets s.
Proof.
  intros Hentry Htok. revert s Hentry.
  induction waits as [|d waits IH]; intros s Hentry.
  - by exists s.
  - simpl. unfold bind at 1. simpl. unfold bind at 1.
    rewrite (getToken_cached _ tok 0); [|exact Hentry|exact Htok|by left].
    unfold bind.
    edestruct IH as (s' & -> & Htrace & Hbuckets).
    { exact Hentry. }
    exists s'. by rewrite Htrace, Hbuckets.
Qed.

End Tokens.

(** C4.  A resolve that finds nothing cached and whose request is
    answered at once with a body decoding to [rs]:
    - when [rs] has code 0 and [expire = 300], it returns the token and
      caches it until 200 seconds after the instant of caching; from
      then on, a non-empty token is returned from the cache, with no
      request and no other effect, by every resolve up to that instant,
      and a resolve after that instant sends the issuance request again;
    - when [rs] has another code, it returns the error carrying the
      message of [rs] and the cache is left as it was. *)
Theorem C4_token_cache {P : Platform} (appID appSecret appTokenAPI : string)
    (s : St) (resp : Response.t) (rs : appTokenResp.t) :
  let key := tokenCacheKey appID in
  let issuance := tokenRequest appID appSecret appTokenAPI in
  let tok := appTokenResp.AppAccessToken rs in
  0 <= clock s -> clock s + 200 * 1000000000 <= int64_max ->
  buckets s !! key = None ->
  net (trace s) (clock s) issuance = Reply resp ->
  Response.StatusCode resp <> 429 ->
  json_Unmarshal_appTokenResp (Response.Body resp) = Ok rs ->
  (appTokenResp.Code rs = 0 -> appTokenResp.Expire rs = 300 ->
   exists s1,
     getToken appID appSecret appTokenAPI s = (Ok tok, s1)
     /\ clock s1 = clock s
     /\ requests (trace s1) = (requests (trace s) ++ [issuance])%list
     /\ buckets s1 !! key
        = Some (cache.Item tok (clock s1 + 200 * 1000000000))
     /\ (tok <> "" ->
         forall s2,
           buckets s2 !! key = buckets s1 !! key -> in_int64 (clock s2) ->
           (clock s2 <= clock s1 + 200 * 1000000000 ->
            getToken appID appSecret appTokenAPI s2 = (Ok tok, s2))
           /\ (clock s1 + 200 * 1000000000 < clock s2 ->
               exists rest,
                 trace (snd (getToken appID appSecret appTokenAPI s2))
                 = (trace s2 ++ Sent issuance :: rest)%list)))
  /\ (appTokenResp.Code rs <> 0 ->
      exists s1,
        getToken appID appSecret appTokenAPI s
        = (Err (Errorf_s "failed to obtain Lark App Token: %s"
                  (appTokenResp.Msg rs)), s1)
        /\ buckets s1 = buckets s).
Proof.
  intros key issuance tok Hclock Hmax Hnone Hnet Hstatus Hrs.
  pose proof (getToken_answered appID appSecret appTokenAPI s resp rs
                Hnone Hnet Hstatus Hrs) as Hrun.
  split.
  - intros Hcode Hexpire. rewrite Hcode, Hexpire, Z.eqb_refl in Hrun.
    set (s1 := cached _ _ _ _) in Hrun.
    exists s1. split; [exact Hrun|]. split; [reflexivity|].
    split; [subst s1; by rewrite trace_cached, trace_record, requests_app|].
    assert (buckets s1 !! key
            = Some (cache.Item tok (clock s1 + 200 * 1000000000))) as Hentry.
    { subst s1. unfold cached, cache_SetString. simpl. fold key tok.
      replace (wrap64 (300 - 100)) with 200 by reflexivity.
      by apply SetString_expiry. }
    split; [exact Hentry|].
    intros Htok s2 Hsame Hclock2. rewrite Hentry in Hsame. split.
    + intros Hle. eapply getToken_cached; [exact Hsame|exact Htok|].
      right. split; [exact Hclock2|exact Hle].
    + intros Hlt. eapply getToken_expired; [exact Hsame|exact Hclock2| |exact Hlt].
      change (clock s1) with (clock s). lia.
  - intros Hcode. replace (appTokenResp.Code rs =? 0) with false in Hrun by lia.
    eexists. split; [exact Hrun|reflexivity].
Qed.

Lemma C4_token_cache_witness :
  exists s1,
    getToken (P := examplePlatform (constantServer 200 (issued "t-xxxxxxx" "300") ∅))
      "cli_xxxxxx" "xxxxxxx" "https://open.feishu.cn/token" exampleState
    = (Ok "t-xxxxxxx", s1)
    /\ buckets s1 !! tokenCacheKey "cli_xxxxxx"
       = Some (cache.Item "t-xxxxxxx" 1700000200000000000).
Proof.
  destruct (C4_token_cache
              (P := examplePlatform (constantServer 200 (issued "t-xxxxxxx" "300") ∅))
              "cli_xxxxxx" "xxxxxxx" "https://open.feishu.cn/token" exampleState
              {| Response.StatusCode := 200;
                 Response.Body := issued "t-xxxxxxx" "300";
                 Response.Headers := ∅ |}
              (issuedResp "t-xxxxxxx" 300))
    as (Hissued & _);
    [simpl; lia | unfold int64_max; simpl; lia | reflexivity | reflexivity
    | simpl; lia | reflexivity | ].
  destruct (Hissued eq_refl eq_refl) as (s1 & Hrun & Hclock & _ & Hentry & _).
  exists s1. split; [exact Hrun|]. rewrite Hentry, Hclock. reflexivity.
Defined.

(** C4 as stated fails: an issuance that succeeds with [expire = 300] and
    an empty token is cached for 200 seconds, and yet the next resolve,
    at the same instant, sends the issuance request again. *)
Lemma C4_empty_token_reissued :
  fst (resolveTwice (issued "" "300")) = [Ok ""; Ok ""]
  /\ buckets (snd (resolveTwice (issued "" "300"))) !! tokenCacheKey "cli_xxxxxx"
     = Some (cache.Item "" (clock exampleState + 200 * 1000000000))
  /\ length (requests (trace (snd (resolveTwice (issued "" "300"))))) = 2%nat.
Proof. repeat split. Qed.

(** C10.  A resolve that finds nothing cached and whose request is
    answered at once with code 0, a non-empty token and an [expire] of at
    most 100 (and at least [int64_min + 100], so that [expire - 100] is
    an [int]): the lifetime computed is zero or negative, the token is
    stored with no expiration, and any number of later resolves, at any
    instants, return the token with no request and no other effect. *)
Theorem C10_never_expiring_token {P : Platform}
    (appID appSecret appTokenAPI : string)
    (s : St) (resp : Response.t) (rs : appTokenResp.t) :
  let key := tokenCacheKey appID in
  let issuance := tokenRequest appID appSecret appTokenAPI in
  let tok := appTokenResp.AppAccessToken rs in
  buckets s !! key = None ->
  net (trace s) (clock s) issuance = Reply resp ->
  Response.StatusCode resp <> 429 ->
  json_Unmarshal_appTokenResp (Response.Body resp) = Ok rs ->
  appTokenResp.Code rs = 0 ->
  int64_min + 100 <= appTokenResp.Expire rs <= 100 ->
  tok <> "" ->
  exists s1,
    getToken appID appSecret appTokenAPI s = (Ok tok, s1)
    /\ wrap64 (appTokenResp.Expire rs - 100) <= 0
    /\ buckets s1 !! key = Some (cache.Item tok 0)
    /\ forall (waits : list Z) (s2 : St),
         buckets s2 !! key = buckets s1 !! key ->
         exists s2',
           resolveAfter appID appSecret appTokenAPI waits s2
           = (replicate (length waits) (Ok tok), s2')
           /\ trace s2' = trace s2
           /\ buckets s2' = buckets s2.
Proof.
  intros key issuance tok Hnone Hnet Hstatus Hrs Hcode Hexpire Htok.
  pose proof (getToken_answered appID appSecret appTokenAPI s resp rs
                Hnone Hnet Hstatus Hrs) as Hrun.
  rewrite Hcode, Z.eqb_refl in Hrun.
  set (s1 := cached _ _ _ _) in Hrun.
  assert (wrap64 (appTokenResp.Expire rs - 100) = appTokenResp.Expire rs - 100)
    as Httl.
  { apply wrap64_id. unfold in_int64, int64_min, int64_max in *. lia. }
  exists s1. split; [exact Hrun|]. split; [lia|].
  assert (buckets s1 !! key = Some (cache.Item tok 0)) as Hentry.
  { subst s1. unfold cached, cache_SetString. simpl. fold key tok.
    apply SetString_forever. lia. }
  split; [exact Hentry|].
  intros waits s2 Hsame. rewrite Hentry in Hsame.
  by apply resolveAfter_forever.
Qed.

Lemma C10_never_expiring_token_witness :
  exists s1,
    getToken (P := examplePlatform (constantServer 200 (issued "t-xxxxxxx" "60") ∅))
      "cli_xxxxxx" "xxxxxxx" "https://open.feishu.cn/token" exampleState
    = (Ok "t-xxxxxxx", s1)
    /\ buckets s1 !! tokenCacheKey "cli_xxxxxx" = Some (cache.Item "t-xxxxxxx" 0).
Proof.
  destruct (C10_never_expiring_token
              (P := examplePlatform (constantServer 200 (issued "t-xxxxxxx" "60") ∅))
              "cli_xxxxxx" "xxxxxxx" "https://open.feishu.cn/token" exampleState
              {| Response.StatusCode := 200;
                 Response.Body := issued "t-xxxxxxx" "60";
                 Response.Headers := ∅ |}
              (issuedResp "t-xxxxxxx" 60))
    as (s1 & Hrun & _ & Hentry & _);
    [reflexivity | reflexivity | simpl; lia | reflexivity | reflexivity
    | unfold int64_min; simpl; lia | discriminate | ].
  exists s1. split; [exact Hrun | exact Hentry].
Defined.

(** C10 as stated fails, in two ways.  With [expire = 60] and an empty
    token the entry never expires, and yet the next resolve sends the
    issuance request again.  With the least [int] as [expire], which is
    at most 100, [expire - 100] wraps to a positive lifetime, the entry
    gets an expiration, and the next resolve sends the request again. *)
Lemma C10_reissued :
  (buckets (snd (resolveTwice (issued "" "60"))) !! tokenCacheKey "cli_xxxxxx"
   = Some (cache.Item "" 0)
   /\ length (requests (trace (snd (resolveTwice (issued "" "60"))))) = 2%nat)
  /\ (int64_min <= 100
      /\ 0 < wrap64 (int64_min - 100)
      /\ buckets (snd (resolveTwice (issued "t-xxxxxxx" "-9223372036854775808")))
           !! tokenCacheKey "cli_xxxxxx"
         = Some (cache.Item "t-xxxxxxx" (clock exampleState - 100 * 1000000000))
      /\ length
           (requests
              (trace (snd (resolveTwice (issued "t-xxxxxxx" "-9223372036854775808")))))
         = 2%nat).
Proof. repeat split; first [reflexivity | unfold int64_min; lia]. Qed.

(** ** Routing *)



(** ** Webhook delivery *)

Lemma botParams_other {P : Platform} (m : Message) :
  MsgType m ∉ botTypes ->
  botParams m = Ok {[ "msg_type" := Str (MsgType m) ]}.
Proof.
  intros Htype. unfold botParams, botTypes in *.
  repeat match goal with
         | |- context [String.eqb (MsgType m) ?t] =>
             destruct (String.eqb_spec (MsgType m) t) as [Heq|_];
             [exfalso; apply Htype; rewrite Heq; set_solver|]
         end.
  reflexivity.
Qed.

(** C9.  For a message whose type is none of the five that
    [sendBotWebhookMessage] has a case for:
    - the call starts by POSTing to the webhook a body whose only field
      is [msg_type];
    - whatever happens, it does not return the "invalid message type"
      error of the application path;
    - when that request is answered at once with a body decoding to
      [rs], the call succeeds if the code of [rs] is 0 and fails with the
      message of [rs] otherwise;
    - and whenever the call succeeds, the executor has returned a
      response whose body decodes to a code of 0. *)
Theorem C9_webhook_unknown_type {P : Platform} (webhook : string) (m : Message)
    (s : St) :
  MsgType m ∉ botTypes ->
  let request := botRequest webhook {[ "msg_type" := Str (MsgType m) ]} in
  Request.Method request = "POST"
  /\ Request.URL request = webhook
  /\ Request.Body request = Obj {[ "msg_type" := Str (MsgType m) ]}
  /\ (exists rest,
        trace (snd (sendBotWebhookMessage webhook m s))
        = (trace s ++ Sent request :: rest)%list)
  /\ (forall t : string,
        fst (sendBotWebhookMessage webhook m s)
        <> Err (Errorf_s "invalid message type: %s" t))
  /\ (forall (resp : Response.t) (rs : messageResp.t),
        net (trace s) (clock s) request = Reply resp ->
        Response.StatusCode resp <> 429 ->
        json_Unmarshal_messageResp (Response.Body resp) = Ok rs ->
        sendBotWebhookMessage webhook m s
        = (if messageResp.Code rs =? 0 then Ok tt
           else Err (Errorf_s "failed to send bot message: %s" (messageResp.Msg rs)),
           record (Sent request) s))
  /\ (fst (sendBotWebhookMessage webhook m s) = Ok tt ->
      exists (response : Response.t) (rs : messageResp.t),
        fst (sendLarkAPIRequest request 3 s) = Ok response
        /\ json_Unmarshal_messageResp (Response.Body response) = Ok rs
        /\ messageResp.Code rs = 0).
Proof.
  intros Htype request.
  split; [reflexivity|]. split; [reflexivity|]. split; [reflexivity|].
  unfold sendBotWebhookMessage. rewrite (botParams_other m Htype).
  fold request. unfold bind.
  destruct (sendLarkAPIRequest_first request 3 s) as (rest & Htrace & _).
  split; [|split; [|split]].
  - exists rest.
    destruct (sendLarkAPIRequest request 3 s) as [[response|e|why] s1];
      simpl in *; try exact Htrace.
    destruct (json_Unmarshal_messageResp (Response.Body response)) as [rs|e|why];
      try exact Htrace.
    by destruct (negb (messageResp.Code rs =? 0)).
  - intros t.
    destruct (sendLarkAPIRequest request 3 s) as [[response|e|why] s1];
      simpl; try discriminate.
    destruct (json_Unmarshal_messageResp (Response.Body response)) as [rs|e|why];
      try discriminate.
    destruct (negb (messageResp.Code rs =? 0)); discriminate.
  - intros resp rs Hnet Hstatus Hrs.
    destruct (sendLarkAPIRequest_turns request 3) as (left & ->).
    rewrite (retryLoop_answer _ _ _ _ _ _ Hnet Hstatus), Hrs.
    by destruct (messageResp.Code rs =? 0).
  - destruct (sendLarkAPIRequest request 3 s) as [[response|e|why] s1];
      simpl; try discriminate.
    destruct (json_Unmarshal_messageResp (Response.Body response))
      as [rs|e|why] eqn:Hrs; try discriminate.
    destruct (Z.eqb_spec (messageResp.Code rs) 0) as [Hcode|Hcode];
      simpl; [|discriminate].
    intros _. by exists response, rs.
Qed.

Lemma C9_webhook_unknown_type_witness :
  sendBotWebhookMessage
    (P := examplePlatform (constantServer 200 delivered ∅))
    "https://open.feishu.cn/open-apis/bot/v2/hook/xxxxx"
    (exampleMessage "ops" "" "audio" (Str "file_v2_xxx")) exampleState
  = (Ok tt,
     record
       (Sent (botRequest "https://open.feishu.cn/open-apis/bot/v2/hook/xxxxx"
                {[ "msg_type" := Str "audio" ]}))
       exampleState).
Proof.
  destruct (C9_webhook_unknown_type
              (P := examplePlatform (constantServer 200 delivered ∅))
              "https://open.feishu.cn/open-apis/bot/v2/hook/xxxxx"
              (exampleMessage "ops" "" "audio" (Str "file_v2_xxx")) exampleState)
    as (_ & _ & _ & _ & _ & Hrun & _).
  - intros Hin. apply list_elem_of_In in Hin. simpl in Hin.
    intuition discriminate.
  - apply (Hrun {| Response.StatusCode := 200; Response.Body := delivered;
                   Response.Headers := ∅ |}
                {| messageResp.Code := 0; messageResp.Msg := "success" |});
      [reflexivity | simpl; lia | reflexivity].
Defined.

(** ** The timestamp of a card *)

(** Between 1677 and 2262 the civil date has a four-digit year. *)
Lemma civil_range (days : Z) :
  -106760 <= days <= 106760 ->
  let '(y, m, d) := time.civil days in
  1000 <= y <= 9999 /\ 1 <= m <= 12 /\ 1 <= d <= 31.
Proof.
  intros Hdays. unfold time.civil.
  set (z := days + 719468).
  set (doe := z mod 146097).
  set (yoe := (doe - doe / 1460 + doe / 36524 - doe / 146096) / 365).
  set (doy := doe - (365 * yoe + yoe / 4 - yoe / 100)).
  set (mp := (5 * doy + 2) / 153).
  assert (0 <= doe < 146097) as Hdoe by (subst doe; apply Z.mod_pos_bound; lia).
  assert (4 <= z / 146097 <= 5) as Hera
    by (subst z; Z.to_euclidean_division_equations; lia).
  assert (0 <= yoe <= 399) as Hyoe.
  { subst yoe. Z.to_euclidean_division_equations. lia. }
  assert (0 <= doy <= 365) as Hdoy.
  { subst doy yoe. Z.to_euclidean_division_equations. lia. }
  assert (0 <= mp <= 11) as Hmp.
  { subst mp. Z.to_euclidean_division_equations. lia. }
  assert (1 <= doy - (153 * mp + 2) / 5 + 1 <= 31) as Hd.
  { subst mp. Z.to_euclidean_division_equations. lia. }
  destruct (Z.ltb_spec mp 10);
    [destruct (mp + 3 <=? 2)|destruct (mp - 9 <=? 2)]; cbv beta iota; lia.
Qed.

(** A boolean test that holds on the first [n] naturals holds below [n]. *)
Lemma below (f : Z -> bool) (n : nat) :
  forallb f (map Z.of_nat (seq 0 n)) = true ->
  forall x, 0 <= x < Z.of_nat n -> f x = true.
Proof.
  intros Hall x Hx. rewrite forallb_forall in Hall. apply Hall.
  apply in_map_iff. exists (Z.to_nat x). split; [lia|].
  apply in_seq. lia.
Qed.

Lemma appendInt_2 (x : Z) : 0 <= x < 100 -> layout "dd" (time.appendInt x 2) = true.
Proof.
  apply (below (fun x => layout "dd" (time.appendInt x 2)) 100). by vm_compute.
Qed.

Lemma appendInt_4 (x : Z) : 0 <= x < 10000 -> layout "dddd" (time.appendInt x 4) = true.
Proof.
  apply (below (fun x => layout "dddd" (time.appendInt x 4)) (Z.to_nat 10000)).
  by vm_compute. Qed.

Lemma layout_app (p1 p2 s1 s2 : string) :
  layout p1 s1 = true -> layout p2 s2 = true -> layout (p1 ++ p2) (s1 ++ s2) = true.
Proof.
  revert s1. induction p1 as [|c p1 IH]; intros [|c1 s1]; simpl; try done.
  intros [Hc Hrest]%andb_prop Hp2. rewrite Hc. simpl. by apply IH.
Qed.

(** For an instant [UnixNano] can represent, and a zone offset of at most
    a day, the formatted time has the shape [YYYY-MM-DD HH:MM:SS]. *)
Lemma Format_layout (zone : Z -> Z) (t : Z) :
  in_int64 t -> (forall sec, -86400 <= zone sec <= 86400) ->
  layout "dddd-dd-dd dd:dd:dd" (time.Format zone t) = true.
Proof.
  intros Ht Hzone. unfold time.Format.
  set (sec := t / time.Second).
  set (loc := sec + zone sec).
  assert (-9223372037 <= sec <= 9223372036) as Hsec.
  { subst sec. unfold time.Second, in_int64, int64_min, int64_max in *.
    Z.to_euclidean_division_equations. lia. }
  pose proof (Hzone sec) as Hz.
  assert (-106760 <= loc / 86400 <= 106760) as Hdays.
  { subst loc. Z.to_euclidean_division_equations. lia. }
  pose proof (civil_range _ Hdays) as Hcivil.
  destruct (time.civil (loc / 86400)) as [[y m] d].
  destruct Hcivil as (Hy & Hm & Hd).
  assert (0 <= loc mod 86400 < 86400) as Hrem by (apply Z.mod_pos_bound; lia).
  change "dddd-dd-dd dd:dd:dd"
    with ("dddd" ++ "-" ++ "dd" ++ "-" ++ "dd" ++ " "
          ++ "dd" ++ ":" ++ "dd" ++ ":" ++ "dd").
  repeat (apply layout_app;
          [first [reflexivity | apply appendInt_4 | apply appendInt_2];
           Z.to_euclidean_division_equations; lia|]).
  apply appendInt_2. Z.to_euclidean_division_equations; lia.
Qed.

(** ** Submission *)

(** The rendered card is the text of the template around the four values. *)
Lemma Execute_defaultCardMsgTmpl (data : defaultCardMsgTmplData.t) :
  Execute defaultCardMsgTmpl data
  = tmplHead ++ defaultCardMsgTmplData.Content data
    ++ tmplAfterContent ++ defaultCardMsgTmplData.Time data
    ++ tmplAfterTime ++ defaultCardMsgTmplData.Title data
    ++ tmplAfterTitle ++ defaultCardMsgTmplData.LevelColor data
    ++ tmplTail.
Proof.
  unfold Execute, defaultCardMsgTmpl. cbn [map String.concat].
  generalize tmplHead tmplAfterContent tmplAfterTime tmplAfterTitle tmplTail.
  intros t0 t1 t2 t3 t4.
  assert (forall a b : string, a ++ "" ++ b = a ++ b) as Hnil by done.
  by rewrite !Hnil.
Qed.

(** The color of a level is one of the four of the table. *)
Lemma levelColor_table (level : string) :
  levelColor level
  = if String.eqb level "success" then "green"
    else if String.eqb level "error" then "red"
    else if String.eqb level "warn" then "yellow"
    else "blue".
Proof.
  unfold levelColor, levelColorMap.
  destruct (String.eqb_spec level "success") as [->|Hs]; [reflexivity|].
  destruct (String.eqb_spec level "error") as [->|He]; [reflexivity|].
  destruct (String.eqb_spec level "warn") as [->|Hw]; [reflexivity|].
  rewrite !lookup_insert_ne by done. by rewrite lookup_singleton_ne.
Qed.

(** Taking an id touches nothing but the id generator. *)
Lemma assignID_frame (m : Message) (s s0 : St) (id : string) :
  assignID m s = (Some id, s0) ->
  clock s0 = clock s /\ trace s0 = trace s /\ buckets s0 = buckets s
  /\ messages s0 = messages s.
Proof.
  unfold assignID, msgID_New, ret. destruct (empty (ID m)).
  - destruct (msgid.New (msgID s)) as [[id' ids]|]; [|discriminate].
    intros [= _ <-]. done.
  - intros [= _ <-]. done.
Qed.

(** Sending into an open channel with room appends to its buffer. *)
Lemma send_room (m : Message) (s : St) :
  closed (messages s) = false ->
  Z.of_nat (length (buf (messages s))) < capacity (messages s) ->
  exists s',
    send m s = (Returned (ID m) None, s')
    /\ buf (messages s') = (buf (messages s) ++ [m])%list.
Proof.
  intros Hopen Hroom. unfold send. rewrite Hopen.
  replace (Z.of_nat (length (buf (messages s))) <? capacity (messages s))
    with true by lia.
  by eexists.
Qed.

(** C1, as amended.  For a message that qualifies (level and title not
    empty, type empty or ["text"]), submitted to an open channel with
    room, with [id] its id or the one generated for it:
    - when its content is a string, the card data carry the title, the
      color of the level and the time of the call in the shape
      [YYYY-MM-DD HH:MM:SS], and the rendered text is the template around
      them; when that text decodes to [card], the message enqueued has
      type ["interactive"] and content [card]; when the decoding fails,
      the call returns the error and enqueues nothing;
    - when its content is not a string, the message is enqueued as it
      is. *)
Theorem C1_card_rewrite {P : Platform} (m : Message) (id : string) (s s0 : St) :
  shouldGenerateCardMsg m = true ->
  assignID m s = (Some id, s0) ->
  closed (messages s) = false ->
  Z.of_nat (length (buf (messages s))) < capacity (messages s) ->
  match Content m with
  | Str content =>
      let data := cardData (MsgLevel m) (Title m) content (clock s) in
      defaultCardMsgTmplData.Title data = Title m
      /\ defaultCardMsgTmplData.LevelColor data = levelColor (MsgLevel m)
      /\ (in_int64 (clock s) -> (forall sec, -86400 <= zoneOffset sec <= 86400) ->
          layout "dddd-dd-dd dd:dd:dd" (defaultCardMsgTmplData.Time data) = true)
      /\ Execute defaultCardMsgTmpl data
         = tmplHead ++ content
           ++ tmplAfterContent ++ defaultCardMsgTmplData.Time data
           ++ tmplAfterTime ++ Title m
           ++ tmplAfterTitle ++ levelColor (MsgLevel m)
           ++ tmplTail
      /\ match json_Unmarshal_map (Execute defaultCardMsgTmpl data) with
         | Ok card =>
             exists s',
               SubmitMessage m s = (Returned id None, s')
               /\ buf (messages s')
                  = (buf (messages s) ++ [withCard (withID m id) card])%list
               /\ MsgType (withCard (withID m id) card) = "interactive"
               /\ Content (withCard (withID m id) card) = Obj card
         | Err e =>
             SubmitMessage m s
             = (Returned id
                  (Some (Errorf_w "failed to generate card message: %w" e)), s0)
             /\ messages s0 = messages s
         | Panic why => SubmitMessage m s = (Panicked why, s0)
         end
  | _ =>
      exists s',
        SubmitMessage m s = (Returned id None, s')
        /\ buf (messages s') = (buf (messages s) ++ [withID m id])%list
  end.
Proof.
  intros Hcard Hid Hopen Hroom.
  destruct (assignID_frame m s s0 id Hid) as (Hclock & _ & _ & Hmessages).
  assert (forall m', ID m' = id ->
            exists s', send m' s0 = (Returned id None, s')
                       /\ buf (messages s') = (buf (messages s) ++ [m'])%list)
    as Hsend.
  { intros m' <-. rewrite <- Hmessages. apply send_room; by rewrite Hmessages. }
  unfold SubmitMessage, bind. rewrite Hid.
  change (shouldGenerateCardMsg (withID m id)) with (shouldGenerateCardMsg m).
  rewrite Hcard.
  change (Content (withID m id)) with (Content m).
  destruct (Content m) as [|content| | | | |]; try (by apply Hsend).
  cbv zeta. set (data := cardData (MsgLevel m) (Title m) content (clock s)).
  split; [reflexivity|]. split; [reflexivity|].
  split; [intros Hin Hzone; by apply Format_layout|].
  split; [apply Execute_defaultCardMsgTmpl|].
  unfold generateTextCardMsgWithLevel, bind, Now, ret.
  change (MsgLevel (withID m id)) with (MsgLevel m).
  change (Title (withID m id)) with (Title m).
  rewrite Hclock. fold data.
  destruct (json_Unmarshal_map (Execute defaultCardMsgTmpl data)) as [card|e|why].
  - destruct (Hsend (withCard (withID m id) card) eq_refl) as (s' & Hrun & Hbuf).
    by exists s'.
  - done.
  - done.
Qed.

Lemma C1_card_rewrite_witness :
  exists s',
    SubmitMessage (P := examplePlatform unreachable)
      {| ID := "m-1"; SendChannelName := "ops"; SendTo := ""; MsgType := "text";
         MsgLevel := "error"; Title := "Build"; Content := Str "build failed" |}
      exampleState
    = (Returned "m-1" None, s')
    /\ omap (fun m => Some (MsgType m)) (buf (messages s')) = ["interactive"].
Proof.
  pose proof
    (C1_card_rewrite (P := examplePlatform unreachable)
       {| ID := "m-1"; SendChannelName := "ops"; SendTo := ""; MsgType := "text";
          MsgLevel := "error"; Title := "Build"; Content := Str "build failed" |}
       "m-1" exampleState exampleState eq_refl eq_refl eq_refl) as Hcard.
  destruct Hcard as (_ & _ & _ & _ & s' & Hrun & Hbuf & _); [simpl; lia|].
  exists s'. split; [exact Hrun|]. rewrite Hbuf. reflexivity.
Defined.

(** C1 as stated fails: a qualifying message whose content is not a
    string (here a map) is enqueued with its type and content as they
    were. *)
Lemma C1_map_content_not_rewritten :
  shouldGenerateCardMsg mapMessage = true
  /\ MsgType mapMessage = "text"
  /\ fst (SubmitMessage (P := examplePlatform unreachable) mapMessage exampleState)
     = Returned "m-1" None
  /\ buf (messages
            (snd (SubmitMessage (P := examplePlatform unreachable) mapMessage
                    exampleState)))
     = [mapMessage].
Proof. repeat split. Qed.

(** ** Construction *)

(** C3 fails on the code: [New] accepts a configuration whose default
    channel names neither a webhook nor an application, and a message
    that names no channel is then refused at dispatch. *)
Theorem C3_unresolved_default_accepted :
  exists (n : notify) (s : St),
    New (P := examplePlatform unreachable) misdirected exampleState = (Ok n, s)
    /\ defaultSendChannelName n = "oops"
    /\ botWebhooks n !! defaultSendChannelName n = None
    /\ apps n !! defaultSendChannelName n = None
    /\ fst (sendMsg (P := examplePlatform unreachable) n
              (exampleMessage "" "" "text" (Str "build failed")) s)
       = Err (Errorf_s "channel %s is not found in lark" "oops").
Proof. do 2 eexists. repeat split. Qed.

(** The verdict of [validateConfig] on a configuration does not depend
    on which non-empty name its default channel is. *)
Lemma validateConfig_any_default {P : Platform} (config : Config)
    (name name' : string) :
  name <> "" -> name' <> "" ->
  fst (validateConfig (withDefault config name))
  = fst (validateConfig (withDefault config name')).
Proof.
  intros Hname Hname'. unfold validateConfig. simpl.
  unfold empty. apply String.eqb_neq in Hname, Hname'. rewrite Hname, Hname'.
  destruct (_ && _); [reflexivity|].
  by repeat case_match.
Qed.

(** * Further properties of the code *)
(** ** The cache, further *)

(** X1.  Round trip: an entry set with a lifetime of [ttl >= 1] seconds is
    returned, and the cache left as it is, by a get at any instant up to
    and including [ttl] seconds after the set (clock within [int64]). *)
Theorem cache_set_get (key val : string) (b : gmap string cache.item)
    (now later ttl : Z) :
  1 <= ttl -> 0 <= now -> now + ttl * 1000000000 <= int64_max ->
  in_int64 later -> later <= now + ttl * 1000000000 ->
  cache.GetString later key (cache.SetString now key val ttl b)
  = ((val, None), cache.SetString now key val ttl b).
Proof.
  intros Httl Hnow Hmax Hlater Hle.
  eapply GetString_live; [by apply SetString_expiry|exact Hlater|exact Hle].
Qed.

Lemma cache_set_get_witness :
  cache.GetString 1700000005000000000 "user_1"
    (cache.SetString 1700000000000000000 "user_1" "John Doe" 5 ∅)
  = (("John Doe", None),
     cache.SetString 1700000000000000000 "user_1" "John Doe" 5 ∅).
Proof.
  apply cache_set_get; unfold in_int64, int64_min, int64_max; lia.
Defined.

(** Overwriting: a second set on a key replaces the entry, value and
    expiration, as if the first set had not been made. *)
Lemma cache_overwrite (key val val' : string) (b : gmap string cache.item)
    (now now' ttl ttl' : Z) :
  cache.SetString now' key val' ttl' (cache.SetString now key val ttl b)
  = cache.SetString now' key val' ttl' b.
Proof. unfold cache.SetString. apply insert_insert_eq. Qed.

(** A get on one key leaves the entry of every other key as it is. *)
Lemma GetString_other (now : Z) (key other : string) (b : gmap string cache.item) :
  other <> key -> snd (cache.GetString now key b) !! other = b !! other.
Proof.
  intros Hother. unfold cache.GetString. destruct (b !! key) as [v|]; [|done].
  destruct (_ && _); [|done]. simpl. by rewrite lookup_delete_ne.
Qed.

(** X2.  Frame: a set or a get on one key leaves the entry of every
    other key as it is, and a get answers the same for that other key
    whether or not the first key has been set; a get never adds a key. *)
Theorem cache_other_keys (key other val : string) (b : gmap string cache.item)
    (now now' ttl : Z) :
  other <> key ->
  cache.SetString now key val ttl b !! other = b !! other
  /\ snd (cache.GetString now key b) !! other = b !! other
  /\ fst (cache.GetString now' other (cache.SetString now key val ttl b))
     = fst (cache.GetString now' other b)
  /\ snd (cache.GetString now key b) ⊆ b.
Proof.
  intros Hother.
  assert (cache.SetString now key val ttl b !! other = b !! other) as Hset.
  { unfold cache.SetString. by rewrite lookup_insert_ne. }
  split; [exact Hset|]. split; [|split].
  - by apply GetString_other.
  - unfold cache.GetString. rewrite Hset.
    destruct (b !! other) as [v|]; [|done]. by destruct (_ && _).
  - unfold cache.GetString. destruct (b !! key) as [v|]; [|done].
    destruct (_ && _); [|done]. simpl. apply delete_subseteq.
Qed.

Lemma cache_other_keys_witness :
  cache.SetString 1700000000000000000 "a" "1" 5 ∅ !! "b"
  = (∅ : gmap string cache.item) !! "b".
Proof.
  apply (cache_other_keys "a" "b" "1" ∅ 1700000000000000000 0 5). discriminate.
Defined.

(** X3.  A lifetime of zero or less, negative ones included, means no
    expiration: the entry is returned by a get at any instant. *)
Theorem cache_nonpositive_ttl (key val : string) (b : gmap string cache.item)
    (now later ttl : Z) :
  ttl <= 0 ->
  cache.GetString later key (cache.SetString now key val ttl b)
  = ((val, None), cache.SetString now key val ttl b).
Proof. intros Httl. by apply GetString_forever, SetString_forever. Qed.

Lemma cache_nonpositive_ttl_witness :
  cache.GetString 9000000000000000000 "k" (cache.SetString 0 "k" "v" (-40) ∅)
  = (("v", None), cache.SetString 0 "k" "v" (-40) ∅).
Proof. apply cache_nonpositive_ttl. lia. Defined.

(** ** The request executor, further *)

(** One run of the loop, whatever the server does: at least one request
    and at most one per turn, all of them the given request; one sleep
    between two consecutive requests and none after the last; never the
    error of the [return] that follows the loop, never a panic, and
    never a response with status 429. *)
Lemma retryLoop_bounds {P : Platform} (request : Request.t) (maxRetries : Z)
    (left : nat) :
  forall (retry : Z) (s : St),
    Z.of_nat (S left) = maxRetries + 1 - retry ->
    exists ext,
      trace (snd (retryLoop request maxRetries (S left) retry s))
      = (trace s ++ ext)%list
      /\ (1 <= length (requests ext) <= S left)%nat
      /\ requests ext = replicate (length (requests ext)) request
      /\ S (length (sleeps ext)) = length (requests ext)
      /\ (forall n : Z,
            fst (retryLoop request maxRetries (S left) retry s)
            <> Err (Errorf_d "failed to send request after %d retries" n))
      /\ (forall why,
            fst (retryLoop request maxRetries (S left) retry s) <> Panic why)
      /\ (forall resp,
            fst (retryLoop request maxRetries (S left) retry s) = Ok resp ->
            Response.StatusCode resp <> 429).
Proof.
  induction left as [|left IH]; intros retry s Hleft.
  - destruct (net (trace s) (clock s) request) as [e|resp] eqn:Hnet.
    { rewrite (retryLoop_failure _ _ _ _ _ _ Hnet). exists [Sent request].
      simpl. repeat split; try lia; try discriminate. }
    destruct (Z.eq_dec (Response.StatusCode resp) 429) as [Hstatus|Hstatus].
    + rewrite (retryLoop_exhausted _ _ _ _ _ _ Hnet Hstatus) by lia.
      exists [Sent request]. simpl. repeat split; try lia; try discriminate.
    + rewrite (retryLoop_answer _ _ _ _ _ _ Hnet Hstatus).
      exists [Sent request]. simpl. repeat split; try lia; try discriminate.
      intros resp' [= <-]. exact Hstatus.
  - destruct (net (trace s) (clock s) request) as [e|resp] eqn:Hnet.
    { rewrite (retryLoop_failure _ _ _ _ _ _ Hnet). exists [Sent request].
      simpl. repeat split; try lia; try discriminate. }
    destruct (Z.eq_dec (Response.StatusCode resp) 429) as [Hstatus|Hstatus].
    + rewrite (retryLoop_retry _ _ _ _ _ _ Hnet Hstatus) by lia.
      match goal with
      | |- context [retryLoop _ _ (S left) ?r ?s0] =>
          destruct (IH r s0) as (ext & Htrace & Hcount & Hall & Hsleeps & Hrest);
          [lia|]
      end.
      rewrite trace_asleep, trace_record, <- !app_assoc in Htrace.
      eexists. split; [exact Htrace|].
      rewrite !requests_app, !sleeps_app. simpl.
      split; [lia|]. split; [by rewrite <- Hall|]. split; [lia|exact Hrest].
    + rewrite (retryLoop_answer _ _ _ _ _ _ Hnet Hstatus).
      exists [Sent request]. simpl. repeat split; try lia; try discriminate.
      intros resp' [= <-]. exact Hstatus.
Qed.

(** X4.  Whatever the server does, a call of the executor makes at least
    one request and at most [retries + 1] (with [retries] the argument,
    or 3 when the argument is not positive), all of them the given
    request; the number of its sleeps is one less than the number of
    its requests; it leaves the cache as it is; it never returns the
    error "failed to send request after ... retries" of the statement
    that follows the loop, and never hands back a response with status
    429. *)
Theorem sendLarkAPIRequest_bounds {P : Platform} (request : Request.t)
    (maxRetries : Z) (s : St) :
  exists ext,
    trace (snd (sendLarkAPIRequest request maxRetries s)) = (trace s ++ ext)%list
    /\ 1 <= Z.of_nat (length (requests ext))
       <= (if maxRetries <=? 0 then 3 else maxRetries) + 1
    /\ requests ext = replicate (length (requests ext)) request
    /\ S (length (sleeps ext)) = length (requests ext)
    /\ buckets (snd (sendLarkAPIRequest request maxRetries s)) = buckets s
    /\ (forall n : Z,
          fst (sendLarkAPIRequest request maxRetries s)
          <> Err (Errorf_d "failed to send request after %d retries" n))
    /\ (forall resp,
          fst (sendLarkAPIRequest request maxRetries s) = Ok resp ->
          Response.StatusCode resp <> 429).
Proof.
  pose proof (sendLarkAPIRequest_first request maxRetries s) as (_ & _ & Hb).
  unfold sendLarkAPIRequest in *.
  set (retries := if maxRetries <=? 0 then 3 else maxRetries) in *.
  assert (1 <= retries) as Hpos
    by (subst retries; destruct (Z.leb_spec maxRetries 0); lia).
  replace (Z.to_nat (retries + 1)) with (S (Z.to_nat retries)) in * by lia.
  destruct (retryLoop_bounds request retries (Z.to_nat retries) 0 s)
    as (ext & Htrace & Hcount & Hall & Hsleeps & Hdead & _ & Hok); [lia|].
  exists ext. split; [exact Htrace|]. split; [lia|]. split; [exact Hall|].
  split; [exact Hsleeps|]. split; [exact Hb|]. split; [exact Hdead|exact Hok].
Qed.

(** The loop against a server that throttles the next [k] attempts and
    then answers. *)
Lemma retryLoop_recovers {P : Platform} (request : Request.t) (maxRetries : Z)
    (resp : Response.t) (k : nat) :
  Response.StatusCode resp <> 429 ->
  forall (left : nat) (retry : Z) (s : St),
    (k <= left)%nat -> retry + Z.of_nat k <= maxRetries ->
    throttled request (trace s) k resp ->
    exists s',
      retryLoop request maxRetries (S left) retry s = (Ok resp, s')
      /\ requests (trace s') = (requests (trace s) ++ replicate (S k) request)%list
      /\ length (sleeps (trace s')) = (length (sleeps (trace s)) + k)%nat.
Proof.
  intros Hstatus. induction k as [|k IH]; intros left retry s Hleft Hretry Hserver.
  - destruct (Hserver [] (clock s)) as [_ Hnet]. rewrite app_nil_r in Hnet.
    rewrite (retryLoop_answer _ _ _ _ _ _ (Hnet eq_refl) Hstatus).
    eexists. split; [reflexivity|].
    rewrite trace_record, requests_app, sleeps_app. simpl.
    rewrite app_nil_r. split; [reflexivity|lia].
  - destruct (Hserver [] (clock s)) as [Hnet _]. rewrite app_nil_r in Hnet.
    destruct Hnet as (r & Hnet & H429); [simpl; lia|].
    destruct left as [|left]; [lia|].
    rewrite (retryLoop_retry _ _ _ _ _ _ Hnet H429) by lia.
    match goal with
    | |- context [retryLoop _ _ (S left) ?r0 ?s0] =>
        destruct (IH left r0 s0) as (s' & Hrun & Hreq & Hsleep); [lia|lia| |]
    end.
    + intros ext t. rewrite trace_asleep, trace_record, <- !app_assoc.
      destruct (Hserver ([Sent request] ++ [Slept
                  (time.seconds (extractResetTime
                     (default [] (Response.Headers r !! "x-ogw-ratelimit-reset"))))]
                  ++ ext)%list t) as [Hbusy Hfree].
      rewrite !requests_app in Hbusy, Hfree. simpl in Hbusy, Hfree.
      split.
      * intros Hlt. apply Hbusy. lia.
      * intros Heq. apply Hfree. lia.
    + exists s'. split; [exact Hrun|].
      rewrite Hreq, Hsleep, trace_asleep, trace_record, !requests_app, !sleeps_app.
      simpl. rewrite !app_nil_r, <- app_assoc, length_app. simpl.
      split; [reflexivity|lia].
Qed.

(** X5.  Recovery: when the server answers 429 to the first [k] attempts
    of a call, with [k] at most the retry bound in force, and then any
    other status, the executor returns that response after [k + 1]
    requests and [k] sleeps. *)
Theorem sendLarkAPIRequest_recovers {P : Platform} (request : Request.t)
    (maxRetries : Z) (s : St) (k : nat) (resp : Response.t) :
  Z.of_nat k <= (if maxRetries <=? 0 then 3 else maxRetries) ->
  Response.StatusCode resp <> 429 ->
  throttled request (trace s) k resp ->
  exists s',
    sendLarkAPIRequest request maxRetries s = (Ok resp, s')
    /\ requests (trace s') = (requests (trace s) ++ replicate (S k) request)%list
    /\ length (sleeps (trace s')) = (length (sleeps (trace s)) + k)%nat.
Proof.
  intros Hk Hstatus Hserver. unfold sendLarkAPIRequest.
  set (retries := if maxRetries <=? 0 then 3 else maxRetries) in *.
  assert (1 <= retries) as Hpos
    by (subst retries; destruct (Z.leb_spec maxRetries 0); lia).
  replace (Z.to_nat (retries + 1)) with (S (Z.to_nat retries)) by lia.
  apply retryLoop_recovers; [exact Hstatus|lia|lia|exact Hserver].
Qed.

Lemma sendLarkAPIRequest_recovers_witness :
  exists s',
    sendLarkAPIRequest
      (P := examplePlatform
              (flakyServer 2 {| Response.StatusCode := 500; Response.Body := "";
                                Response.Headers := ∅ |}))
      (botRequest "https://open.feishu.cn/open-apis/bot/v2/hook/xxxxx" ∅) 3
      exampleState
    = (Ok {| Response.StatusCode := 500; Response.Body := "";
             Response.Headers := ∅ |}, s')
    /\ length (sleeps (trace s')) = 2%nat.
Proof.
  destruct (sendLarkAPIRequest_recovers
              (P := examplePlatform
                      (flakyServer 2 {| Response.StatusCode := 500;
                                        Response.Body := "";
                                        Response.Headers := ∅ |}))
              (botRequest "https://open.feishu.cn/open-apis/bot/v2/hook/xxxxx" ∅)
              3 exampleState 2
              {| Response.StatusCode := 500; Response.Body := "";
                 Response.Headers := ∅ |})
    as (s' & Hrun & _ & Hsleeps).
  - simpl. lia.
  - simpl. lia.
  - intros ext t. simpl. unfold flakyServer. split.
    + intros Hlt. apply Nat.ltb_lt in Hlt. rewrite Hlt. by eexists.
    + intros Heq. rewrite Heq. reflexivity.
  - exists s'. split; [exact Hrun|exact Hsleeps].
Defined.

(** ** Tokens, further *)

Lemma tokenCacheKey_inj (appID appID' : string) :
  tokenCacheKey appID = tokenCacheKey appID' -> appID = appID'.
Proof.
  unfold tokenCacheKey. intros Heq. vm_compute in Heq. by injection Heq.
Qed.

(** A get that answers without an error answers from an entry, which it
    leaves in place. *)
Lemma GetString_found (now : Z) (key tok : string) (b b' : gmap string cache.item) :
  cache.GetString now key b = ((tok, None), b') ->
  b' = b /\ exists exp, b !! key = Some (cache.Item tok exp).
Proof.
  unfold cache.GetString. destruct (b !! key) as [[v exp]|]; [|discriminate].
  destruct (_ && _); [discriminate|]. simpl. intros [= <- <-]. eauto.
Qed.

(** X6.  Resolving the token of one application never changes what the
    cache holds under another key, in particular for another
    application, whatever the server answers. *)
Theorem getToken_other_keys {P : Platform} (appID appSecret appTokenAPI : string)
    (s : St) :
  (forall other : string,
     other <> tokenCacheKey appID ->
     buckets (snd (getToken appID appSecret appTokenAPI s)) !! other
     = buckets s !! other)
  /\ (forall appID' : string,
        appID' <> appID ->
        buckets (snd (getToken appID appSecret appTokenAPI s))
          !! tokenCacheKey appID'
        = buckets s !! tokenCacheKey appID').
Proof.
  assert (forall other : string,
            other <> tokenCacheKey appID ->
            buckets (snd (getToken appID appSecret appTokenAPI s)) !! other
            = buckets s !! other) as Hframe.
  { intros other Hother. unfold getToken, bind, cache_GetString.
    pose proof (GetString_other (clock s) (tokenCacheKey appID) other
                  (buckets s) Hother) as Hget.
    destruct (cache.GetString (clock s) (tokenCacheKey appID) (buckets s))
      as [[token err] b'].
    simpl in Hget.
    destruct (bool_decide (err = None) && negb (String.eqb token ""));
      [exact Hget|].
    match goal with
    | |- context [sendLarkAPIRequest ?r 3 ?s0] =>
        destruct (sendLarkAPIRequest_first r 3 s0) as (rest & _ & Hb);
        destruct (sendLarkAPIRequest r 3 s0) as [[response|e|why] s1]
    end; simpl in Hb; simpl; try (by rewrite Hb).
    destruct (json_Unmarshal_appTokenResp (Response.Body response)) as [rs|e|why];
      simpl; try (by rewrite Hb).
    destruct (negb (appTokenResp.Code rs =? 0)); simpl; [by rewrite Hb|].
    unfold cache.SetString. rewrite lookup_insert_ne by done. by rewrite Hb. }
  split; [exact Hframe|].
  intros appID' Hne. apply Hframe. intros Heq.
  by apply tokenCacheKey_inj in Heq.
Qed.

(** X7.  A resolve that fails stores nothing: the cache is as the lookup
    left it (as it was, but for an expired entry of the key, which the
    lookup deletes), and the error is one of the three the function
    builds. *)
Theorem getToken_error_stores_nothing {P : Platform}
    (appID appSecret appTokenAPI : string) (s : St) (e : error) :
  fst (getToken appID appSecret appTokenAPI s) = Err e ->
  buckets (snd (getToken appID appSecret appTokenAPI s))
  = snd (cache.GetString (clock s) (tokenCacheKey appID) (buckets s))
  /\ ((exists cause, e = Errorf_w "failed to request Lark App Token: %w" cause)
      \/ (exists cause, e = Errorf_w "failed to parse token response: %w" cause)
      \/ (exists msg, e = Errorf_s "failed to obtain Lark App Token: %s" msg)).
Proof.
  unfold getToken, bind, cache_GetString.
  destruct (cache.GetString (clock s) (tokenCacheKey appID) (buckets s))
    as [[token err] b'].
  destruct (bool_decide (err = None) && negb (String.eqb token ""));
    [discriminate|].
  match goal with
  | |- context [sendLarkAPIRequest ?r 3 ?s0] =>
      destruct (sendLarkAPIRequest_first r 3 s0) as (rest & _ & Hb);
      destruct (sendLarkAPIRequest r 3 s0) as [[response|e0|why] s1]
  end; simpl in Hb; simpl; try discriminate.
  - destruct (json_Unmarshal_appTokenResp (Response.Body response))
      as [rs|e0|why]; simpl; try discriminate.
    + destruct (negb (appTokenResp.Code rs =? 0)); simpl; [|discriminate].
      intros [= <-]. split; [exact Hb|]. right. right. by eexists.
    + intros [= <-]. split; [exact Hb|]. right. left. by eexists.
  - intros [= <-]. split; [exact Hb|]. left. by eexists.
Qed.

Lemma getToken_error_stores_nothing_witness :
  buckets
    (snd (getToken (P := examplePlatform (constantServer 200 refused ∅))
            "cli_xxxxxx" "xxxxxxx" "https://open.feishu.cn/token" exampleState))
  = snd (cache.GetString (clock exampleState) (tokenCacheKey "cli_xxxxxx")
           (buckets exampleState)).
Proof.
  eapply (getToken_error_stores_nothing
            (P := examplePlatform (constantServer 200 refused ∅))).
  reflexivity.
Defined.

(** X8.  A resolve that succeeds leaves its token in the cache under the
    key of the application, be it the token found there or the token
    just issued. *)
Theorem getToken_ok_cached {P : Platform} (appID appSecret appTokenAPI : string)
    (s : St) (tok : string) :
  fst (getToken appID appSecret appTokenAPI s) = Ok tok ->
  exists exp,
    buckets (snd (getToken appID appSecret appTokenAPI s)) !! tokenCacheKey appID
    = Some (cache.Item tok exp).
Proof.
  unfold getToken, bind, cache_GetString.
  destruct (cache.GetString (clock s) (tokenCacheKey appID) (buckets s))
    as [[token err] b'] eqn:Hget.
  destruct (bool_decide (err = None) && negb (String.eqb token "")) eqn:Hhit.
  - simpl. intros [= <-].
    apply andb_prop in Hhit as [Herr _]. apply bool_decide_eq_true in Herr.
    subst err. apply GetString_found in Hget as [-> Hentry]. exact Hentry.
  - match goal with
    | |- context [sendLarkAPIRequest ?r 3 ?s0] =>
        destruct (sendLarkAPIRequest r 3 s0) as [[response|e0|why] s1]
    end; simpl; try discriminate.
    destruct (json_Unmarshal_appTokenResp (Response.Body response))
      as [rs|e0|why]; simpl; try discriminate.
    destruct (negb (appTokenResp.Code rs =? 0)); simpl; [discriminate|].
    intros [= <-]. eexists. unfold cache.SetString. apply lookup_insert_eq.
Qed.

Lemma getToken_ok_cached_witness :
  exists exp,
    buckets
      (snd (getToken
              (P := examplePlatform (constantServer 200 (issued "t-xxxxxxx" "300") ∅))
              "cli_xxxxxx" "xxxxxxx" "https://open.feishu.cn/token" exampleState))
      !! tokenCacheKey "cli_xxxxxx"
    = Some (cache.Item "t-xxxxxxx" exp).
Proof.
  eapply (getToken_ok_cached
            (P := examplePlatform (constantServer 200 (issued "t-xxxxxxx" "300") ∅))).
  reflexivity.
Defined.

(** The executor on a transport failure at the first attempt. *)
Lemma sendLarkAPIRequest_failure {P : Platform} (request : Request.t)
    (maxRetries : Z) (s : St) (e : error) :
  net (trace s) (clock s) request = TransportError e ->
  sendLarkAPIRequest request maxRetries s
  = (Err (Errorf_w "failed to execute request: %w" e), record (Sent request) s).
Proof.
  intros Hnet.
  destruct (sendLarkAPIRequest_turns request maxRetries) as (left & ->).
  by apply retryLoop_failure.
Qed.

(** The executor, with the bound of 3 retries that all its callers pass,
    against a server that always answers 429. *)
Lemma sendLarkAPIRequest_3_rate_limited {P : Platform} (request : Request.t)
    (s : St) :
  (forall tr t, exists resp,
      net tr t request = Reply resp /\ Response.StatusCode resp = 429) ->
  exists s',
    sendLarkAPIRequest request 3 s
    = (Err (Errorf_d "rate limit exceeded after %d retries" 3), s')
    /\ requests (trace s') = (requests (trace s) ++ replicate 4 request)%list
    /\ length (sleeps (trace s')) = (length (sleeps (trace s)) + 3)%nat
    /\ buckets s' = buckets s.
Proof.
  intros Hserver.
  destruct (retryLoop_rate_limited request 3 Hserver 3 0 s)
    as (s' & Hrun & Hreq & Hsleeps); [lia|].
  exists s'. split; [exact Hrun|]. split; [exact Hreq|]. split; [exact Hsleeps|].
  pose proof (retryLoop_extends request 3 4 0 s) as (ext & _ & Hb).
  by rewrite Hrun in Hb.
Qed.

(** X9.  Failures of the executor reach the caller of [getToken] wrapped
    twice, with nothing cached: a transport failure after one request
    and no sleep; a server that always answers 429 after the 4 requests
    and 3 sleeps of the fixed bound of 3 retries. *)
Theorem getToken_executor_errors {P : Platform}
    (appID appSecret appTokenAPI : string) (s : St) :
  let issuance := tokenRequest appID appSecret appTokenAPI in
  buckets s !! tokenCacheKey appID = None ->
  (forall e,
     net (trace s) (clock s) issuance = TransportError e ->
     getToken appID appSecret appTokenAPI s
     = (Err (Errorf_w "failed to request Lark App Token: %w"
               (Errorf_w "failed to execute request: %w" e)),
        record (Sent issuance) s))
  /\ ((forall tr t, exists resp,
         net tr t issuance = Reply resp /\ Response.StatusCode resp = 429) ->
      exists s',
        getToken appID appSecret appTokenAPI s
        = (Err (Errorf_w "failed to request Lark App Token: %w"
                  (Errorf_d "rate limit exceeded after %d retries" 3)), s')
        /\ requests (trace s') = (requests (trace s) ++ replicate 4 issuance)%list
        /\ length (sleeps (trace s')) = (length (sleeps (trace s)) + 3)%nat
        /\ buckets s' = buckets s).
Proof.
  intros issuance Hnone.
  assert (forall r s1,
            sendLarkAPIRequest issuance 3 s = (r, s1) ->
            getToken appID appSecret appTokenAPI s
            = match r with
              | Ok response => getToken appID appSecret appTokenAPI s
              | Err e =>
                  (Err (Errorf_w "failed to request Lark App Token: %w" e), s1)
              | Panic why => (Panic why, s1)
              end) as Hstep.
  { intros r s1 Hrun. unfold getToken, bind, cache_GetString.
    rewrite (GetString_absent _ _ _ Hnone), St_eta. simpl.
    fold issuance. rewrite Hrun. by destruct r. }
  split.
  - intros e Hnet.
    by rewrite (Hstep _ _ (sendLarkAPIRequest_failure issuance 3 s e Hnet)).
  - intros Hserver.
    destruct (sendLarkAPIRequest_3_rate_limited issuance s Hserver)
      as (s' & Hrun & Hreq & Hsleeps & Hb).
    exists s'. by rewrite (Hstep _ _ Hrun).
Qed.

Lemma getToken_executor_errors_witness :
  getToken (P := examplePlatform unreachable)
    "cli_xxxxxx" "xxxxxxx" "https://open.feishu.cn/token" exampleState
  = (Err (Errorf_w "failed to request Lark App Token: %w"
            (Errorf_w "failed to execute request: %w"
               (errors_New "dial tcp: connection refused"))),
     record (Sent (tokenRequest "cli_xxxxxx" "xxxxxxx" "https://open.feishu.cn/token"))
       exampleState).
Proof.
  destruct (getToken_executor_errors (P := examplePlatform unreachable)
              "cli_xxxxxx" "xxxxxxx" "https://open.feishu.cn/token" exampleState)
    as (Hfail & _); [reflexivity|].
  by apply Hfail.
Defined.

(** ** Construction, further *)

(** What [validateConfig] has checked when it returns no error, and what
    it hands back. *)
Lemma validateConfig_ok {P : Platform} (config config' : Config) :
  validateConfig config = (None, config') ->
  DefaultSendChannelName config <> ""
  /\ (BotWebhooks config <> ∅ \/ Larks config <> ∅)
  /\ config'
     = withSizes config
         (if ChannelSize config =? 0 then wrap64 (10 * GOMAXPROCS)
          else ChannelSize config)
         (if PoolSize config =? 0 then wrap64 (10 * GOMAXPROCS)
          else PoolSize config).
Proof.
  unfold validateConfig.
  destruct ((Z.of_nat (size (BotWebhooks config)) =? 0)
            && (Z.of_nat (size (Larks config)) =? 0)) eqn:Hnone; [discriminate|].
  destruct (empty (DefaultSendChannelName config)) eqn:Hdefault; [discriminate|].
  destruct (if _ : bool then _ else _) as [[name lark]|]; [discriminate|].
  intros [= <-]. split; [|split; [|reflexivity]].
  - unfold empty in Hdefault. by apply String.eqb_neq.
  - apply andb_false_iff in Hnone as [Hw|Hl].
    + left. intros Heq. rewrite Heq, map_size_empty in Hw. discriminate.
    + right. intros Heq. rewrite Heq, map_size_empty in Hl. discriminate.
Qed.

(** What the loop of [New] over the applications builds. *)
Lemma initApps_lookup (larks : list (string * Lark.t)) :
  NoDup larks.*1 ->
  forall (acc apps : gmap string app),
    initApps larks acc = Ok apps ->
    forall name : string,
      match (list_to_map larks : gmap string Lark.t) !! name with
      | Some lark => exists a, newApp name lark = Ok a /\ apps !! name = Some a
      | None => apps !! name = acc !! name
      end.
Proof.
  induction larks as [|[name0 lark0] larks IH]; intros Hnodup acc apps Hinit name.
  - simpl in *. rewrite lookup_empty. by injection Hinit as ->.
  - simpl in Hinit. destruct (newApp name0 lark0) as [a0| |] eqn:Hnew;
      try discriminate.
    apply NoDup_cons in Hnodup as [Hfresh Hnodup].
    specialize (IH Hnodup _ _ Hinit).
    simpl. destruct (decide (name = name0)) as [->|Hne].
    + rewrite lookup_insert_eq. exists a0. split; [exact Hnew|].
      specialize (IH name0).
      rewrite (not_elem_of_list_to_map_1 _ _ Hfresh) in IH.
      by rewrite IH, lookup_insert_eq.
    + rewrite lookup_insert_ne by done. specialize (IH name).
      destruct (list_to_map larks !! name); [exact IH|].
      by rewrite IH, lookup_insert_ne.
Qed.

(** What [newApp] has checked when it returns an application. *)
Lemma newApp_ok (name : string) (lark : Lark.t) (a : app) :
  newApp name lark = Ok a ->
  exists host : string,
    ((Lark.AppType lark = "feishu" /\ host = feishuHost)
     \/ (Lark.AppType lark = "lark" /\ host = larkHost))
    /\ msgAPI a = host ++ messageAPI
    /\ match Lark.Token lark with
       | Some f => token a = UserToken f
       | None =>
           Lark.AppID lark <> "" /\ Lark.AppSecret lark <> ""
           /\ token a = DefaultToken (Lark.AppID lark) (Lark.AppSecret lark)
                          (host ++ appAccessTokenAPI)
       end.
Proof.
  unfold newApp.
  destruct (String.eqb_spec (Lark.AppType lark) "feishu") as [Hf|Hf].
  - destruct (Lark.Token lark) as [f|].
    + intros [= <-]. exists feishuHost. by repeat split; [left|..].
    + destruct (empty (Lark.AppID lark)) eqn:Hid; [discriminate|].
      destruct (empty (Lark.AppSecret lark)) eqn:Hsecret; [discriminate|].
      intros [= <-]. exists feishuHost. unfold empty in *.
      apply String.eqb_neq in Hid, Hsecret. by repeat split; [left|..].
  - destruct (String.eqb_spec (Lark.AppType lark) "lark") as [Hl|Hl];
      [|discriminate].
    destruct (Lark.Token lark) as [f|].
    + intros [= <-]. exists larkHost. by repeat split; [right|..].
    + destruct (empty (Lark.AppID lark)) eqn:Hid; [discriminate|].
      destruct (empty (Lark.AppSecret lark)) eqn:Hsecret; [discriminate|].
      intros [= <-]. exists larkHost. unfold empty in *.
      apply String.eqb_neq in Hid, Hsecret. by repeat split; [right|..].
Qed.

(** The applications of a constructed notifier are those of the
    configuration, each built by [newApp]. *)
Lemma New_applications {P : Platform} (config : Config) (s s' : St) (n : notify) :
  New config s = (Ok n, s') ->
  forall name : string,
    match Larks config !! name with
    | Some lark => exists a, newApp name lark = Ok a /\ apps n !! name = Some a
    | None => apps n !! name = None
    end.
Proof.
  unfold New. destruct (validateConfig config) as [[err|] config'] eqn:Hvalid;
    [discriminate|].
  apply validateConfig_ok in Hvalid as (_ & _ & ->). simpl.
  destruct (_ <? 0); [discriminate|].
  unfold bind, allocate, ret.
  destruct (NewPoolWithFunc _) as [err|]; [discriminate|].
  destruct (initApps (map_to_list (Larks config)) ∅) as [apps0|e|why] eqn:Hinit;
    try discriminate.
  intros [= <- <-] name. simpl.
  pose proof (initApps_lookup _ (NoDup_fst_map_to_list (Larks config))
                _ _ Hinit name) as Hlookup.
  rewrite list_to_map_to_list in Hlookup.
  destruct (Larks config !! name); [exact Hlookup|].
  by rewrite Hlookup, lookup_empty.
Qed.

(** X10.  What a successful [New] guarantees: the default channel is the
    configured one and is not empty; at least one target is configured;
    the webhooks are the configured ones; the applications are exactly
    the configured ones, each built by [newApp]; the token cache is
    empty; the queue is empty and open, with the configured capacity or,
    when that is 0, ten times [GOMAXPROCS], and never a negative one; and
    nothing has been sent. *)
Theorem New_ok {P : Platform} (config : Config) (s s' : St) (n : notify) :
  New config s = (Ok n, s') ->
  defaultSendChannelName n = DefaultSendChannelName config
  /\ DefaultSendChannelName config <> ""
  /\ (BotWebhooks config <> ∅ \/ Larks config <> ∅)
  /\ botWebhooks n = BotWebhooks config
  /\ (forall name : string,
        match Larks config !! name with
        | Some lark => exists a, newApp name lark = Ok a /\ apps n !! name = Some a
        | None => apps n !! name = None
        end)
  /\ buckets s' = ∅
  /\ buf (messages s') = [] /\ closed (messages s') = false
  /\ capacity (messages s')
     = (if ChannelSize config =? 0 then wrap64 (10 * GOMAXPROCS)
        else ChannelSize config)
  /\ 0 <= capacity (messages s')
  /\ trace s' = trace s /\ clock s' = clock s.
Proof.
  intros Hnew. pose proof (New_applications config s s' n Hnew) as Happs.
  revert Hnew. unfold New.
  destruct (validateConfig config) as [[err|] config'] eqn:Hvalid;
    [discriminate|].
  apply validateConfig_ok in Hvalid as (Hdefault & Htargets & ->).
  simpl.
  destruct (Z.ltb_spec
              (if ChannelSize config =? 0 then wrap64 (10 * GOMAXPROCS)
               else ChannelSize config) 0) as [Hneg|Hcap]; [discriminate|].
  unfold bind, allocate, ret.
  destruct (NewPoolWithFunc _) as [err|]; [discriminate|].
  destruct (initApps (map_to_list (Larks config)) ∅) as [apps0|e|why];
    try discriminate.
  intros [= <- <-]. simpl in *.
  repeat (split; [done|]). done.
Qed.

Lemma New_ok_witness :
  exists (n : notify) (s' : St),
    New (P := examplePlatform unreachable) exampleConfig exampleState = (Ok n, s')
    /\ capacity (messages s') = 80
    /\ botWebhooks n = BotWebhooks exampleConfig.
Proof.
  destruct (New (P := examplePlatform unreachable) exampleConfig exampleState)
    as [r s'] eqn:Hnew.
  assert (exists n, r = Ok n) as [n ->].
  { vm_compute in Hnew. injection Hnew as <- _. by eexists. }
  exists n, s'. split; [reflexivity|].
  pose proof (New_ok (P := examplePlatform unreachable) exampleConfig
                exampleState s' n Hnew) as (_ & _ & _ & Hw & _ & _ & _ & _ & Hc & _).
  split; [exact Hc|exact Hw].
Defined.

(** X11.  Every application of a constructed notifier comes from a
    configured entry of the same name, whose type is ["feishu"] or
    ["lark"]; it sends to the message endpoint of that platform; and its
    token function is the configured one or, when none is configured,
    the default one for an id and a secret that are both non-empty,
    against the token endpoint of that platform.  So [New] refuses a
    configuration with an entry of another type, or with neither a token
    function nor both credentials. *)
Theorem New_apps {P : Platform} (config : Config) (s s' : St) (n : notify)
    (name : string) (a : app) :
  New config s = (Ok n, s') ->
  apps n !! name = Some a ->
  exists (lark : Lark.t) (host : string),
    Larks config !! name = Some lark
    /\ ((Lark.AppType lark = "feishu" /\ host = feishuHost)
        \/ (Lark.AppType lark = "lark" /\ host = larkHost))
    /\ msgAPI a = host ++ messageAPI
    /\ match Lark.Token lark with
       | Some f => token a = UserToken f
       | None =>
           Lark.AppID lark <> "" /\ Lark.AppSecret lark <> ""
           /\ token a = DefaultToken (Lark.AppID lark) (Lark.AppSecret lark)
                          (host ++ appAccessTokenAPI)
       end.
Proof.
  intros Hnew Happ.
  pose proof (New_applications config s s' n Hnew name) as Hlookup.
  destruct (Larks config !! name) as [lark|]; [|congruence].
  destruct Hlookup as (a' & Hbuilt & Ha'). rewrite Happ in Ha'.
  injection Ha' as <-.
  destruct (newApp_ok _ _ _ Hbuilt) as (host & Htype & Hapi & Htoken).
  by exists lark, host.
Qed.

Lemma New_apps_witness :
  exists (n : notify) (s' : St) (a : app),
    New (P := examplePlatform unreachable) exampleConfig exampleState = (Ok n, s')
    /\ apps n !! "lark_1" = Some a
    /\ msgAPI a = larkHost ++ messageAPI.
Proof.
  destruct (New (P := examplePlatform unreachable) exampleConfig exampleState)
    as [r s'] eqn:Hnew.
  assert (exists n, r = Ok n) as [n ->].
  { vm_compute in Hnew. injection Hnew as <- _. by eexists. }
  pose proof (New_applications exampleConfig exampleState s' n Hnew "lark_1")
    as Hlark.
  change (Larks exampleConfig !! "lark_1")
    with (Some {| Lark.AppType := "lark"; Lark.Token := None;
                  Lark.AppID := "cli_xxxxx"; Lark.AppSecret := "xxxxxx" |})
    in Hlark.
  destruct Hlark as (a & _ & Ha).
  destruct (New_apps (P := examplePlatform unreachable) exampleConfig exampleState
              s' n "lark_1" a Hnew Ha) as (lark & host & Hl & Htype & Hapi & _).
  exists n, s', a. split; [reflexivity|]. split; [exact Ha|].
  change (Larks exampleConfig !! "lark_1")
    with (Some {| Lark.AppType := "lark"; Lark.Token := None;
                  Lark.AppID := "cli_xxxxx"; Lark.AppSecret := "xxxxxx" |})
    in Hl.
  injection Hl as <-. destruct Htype as [[Hf _]|[_ ->]]; [discriminate|exact Hapi].
Defined.

(** X12.  [validateConfig] looks at the credentials of the applications
    only when no webhook is configured.  Then it refuses an entry with an
    id and no secret (or a secret and no id), even one that has its own
    token function; with a webhook configured it never returns the
    "lark config error", and [newApp] accepts such an entry as soon as it
    has a token function and a valid type. *)
Theorem validateConfig_credentials {P : Platform} (config : Config) :
  DefaultSendChannelName config <> "" ->
  (BotWebhooks config = ∅ ->
   forall (name : string) (lark : Lark.t),
     Larks config !! name = Some lark ->
     (Lark.AppID lark <> "" /\ Lark.AppSecret lark = "")
     \/ (Lark.AppID lark = "" /\ Lark.AppSecret lark <> "") ->
     exists refused : string,
       fst (validateConfig config)
       = Some (Errorf_s "lark config error: %s" refused))
  /\ (BotWebhooks config <> ∅ -> fst (validateConfig config) = None)
  /\ (forall (name : string) (lark : Lark.t) (f : res string),
        Lark.Token lark = Some f ->
        Lark.AppType lark = "feishu" \/ Lark.AppType lark = "lark" ->
        exists a, newApp name lark = Ok a /\ token a = UserToken f).
Proof.
  intros Hdefault. apply String.eqb_neq in Hdefault.
  split; [|split].
  - intros Hnone name lark Hlark Hbad. unfold validateConfig.
    rewrite Hnone, map_size_empty. simpl.
    destruct (Z.of_nat (size (Larks config)) =? 0) eqn:Hsize.
    { apply Z.eqb_eq in Hsize. assert (size (Larks config) = 0%nat) as H0 by lia.
      apply map_size_empty_inv in H0. rewrite H0, lookup_empty in Hlark.
      discriminate. }
    unfold empty at 1. rewrite Hdefault. simpl.
    destruct (find _ _) as [[refused l]|] eqn:Hfind; [by eexists|].
    exfalso.
    assert (In (name, lark) (map_to_list (Larks config))) as Hin.
    { apply list_elem_of_In, elem_of_map_to_list, Hlark. }
    pose proof (find_none _ _ Hfind _ Hin) as Hok. simpl in Hok.
    unfold larkConfigError, empty in Hok.
    destruct Hbad as [[Hid Hsecret]|[Hid Hsecret]].
    + apply String.eqb_neq in Hid. rewrite Hid, Hsecret in Hok. simpl in Hok.
      rewrite !andb_false_r in Hok. discriminate.
    + apply String.eqb_neq in Hsecret. rewrite Hid, Hsecret in Hok. simpl in Hok.
      rewrite !andb_false_r, orb_true_r in Hok. discriminate.
  - intros Hsome. unfold validateConfig.
    destruct (Z.of_nat (size (BotWebhooks config)) =? 0) eqn:Hsize.
    { apply Z.eqb_eq in Hsize.
      assert (size (BotWebhooks config) = 0%nat) as H0 by lia.
      by apply map_size_empty_inv in H0. }
    simpl. unfold empty. by rewrite Hdefault.
  - intros name lark f Htoken Htype. unfold newApp. rewrite Htoken.
    destruct Htype as [-> | ->]; simpl; by eexists.
Qed.

Lemma validateConfig_credentials_witness :
  fst (validateConfig (P := examplePlatform unreachable) exampleConfig) = None.
Proof.
  destruct (validateConfig_credentials (P := examplePlatform unreachable)
              exampleConfig) as (_ & Hwebhook & _); [discriminate|].
  apply Hwebhook. intros Heq.
  assert (BotWebhooks exampleConfig !! "test_bot_1" = None) as Hnone
    by (by rewrite Heq).
  discriminate.
Defined.

(** X13.  [Token] on a constructed notifier: for a name that is not a
    configured application it returns the not-found error and does
    nothing; for an application configured with its own token function
    it returns what that function returns, with no request, no sleep and
    no change to the cache. *)
Theorem Token_of_New {P : Platform} (config : Config) (s s' : St) (n : notify)
    (name : string) (s2 : St) :
  New config s = (Ok n, s') ->
  match Larks config !! name with
  | None =>
      Token n name s2 = (Err (Errorf_s "lark app %s not found" name), s2)
  | Some lark =>
      forall f : res string,
        Lark.Token lark = Some f ->
        fst (Token n name s2) = f
        /\ requests (trace (snd (Token n name s2))) = requests (trace s2)
        /\ sleeps (trace (snd (Token n name s2))) = sleeps (trace s2)
        /\ buckets (snd (Token n name s2)) = buckets s2
  end.
Proof.
  intros Hnew. pose proof (New_applications config s s' n Hnew name) as Hlookup.
  unfold Token. destruct (Larks config !! name) as [lark|].
  - destruct Hlookup as (a & Hbuilt & ->). intros f Htoken.
    destruct (newApp_ok _ _ _ Hbuilt) as (host & _ & _ & Ha).
    rewrite Htoken in Ha. rewrite Ha. unfold callToken, bind, emit, ret. simpl.
    rewrite requests_app, sleeps_app. simpl. by rewrite !app_nil_r.
  - by rewrite Hlookup.
Qed.

Lemma Token_of_New_witness :
  exists (n : notify) (s' : St),
    New (P := examplePlatform unreachable) exampleConfig exampleState = (Ok n, s')
    /\ Token (P := examplePlatform unreachable) n "nobody" exampleState
       = (Err (Errorf_s "lark app %s not found" "nobody"), exampleState).
Proof.
  destruct (New (P := examplePlatform unreachable) exampleConfig exampleState)
    as [r s'] eqn:Hnew.
  assert (exists n, r = Ok n) as [n ->].
  { vm_compute in Hnew. injection Hnew as <- _. by eexists. }
  exists n, s'. split; [reflexivity|].
  exact (Token_of_New (P := examplePlatform unreachable) exampleConfig
           exampleState s' n "nobody" exampleState Hnew).
Defined.

(** ** Submission, further *)

(** The three ways [send] can go. *)
Lemma send_cases (m : Message) (s : St) :
  (closed (messages s) = true
   /\ send m s = (Panicked "send on closed channel", s))
  \/ (closed (messages s) = false
      /\ capacity (messages s) <= Z.of_nat (length (buf (messages s)))
      /\ send m s = (Parked m, s))
  \/ (closed (messages s) = false
      /\ Z.of_nat (length (buf (messages s))) < capacity (messages s)
      /\ exists s',
           send m s = (Returned (ID m) None, s')
           /\ buf (messages s') = (buf (messages s) ++ [m])%list
           /\ closed (messages s') = false
           /\ capacity (messages s') = capacity (messages s)
           /\ clock s' = clock s /\ trace s' = trace s
           /\ buckets s' = buckets s /\ msgID s' = msgID s).
Proof.
  unfold send. destruct (closed (messages s)) eqn:Hclosed; [by left|].
  right. destruct (Z.ltb_spec (Z.of_nat (length (buf (messages s))))
                     (capacity (messages s))) as [Hroom|Hfull].
  - right. split; [done|]. split; [done|]. eexists. split; [reflexivity|].
    simpl. repeat split; reflexivity.
  - left. done.
Qed.

(** A message that has an id keeps it, and the generator is not used. *)
Lemma assignID_given (m : Message) (s : St) :
  ID m <> "" -> assignID m s = (Some (ID m), s).
Proof.
  intros Hid. unfold assignID, empty. apply String.eqb_neq in Hid.
  by rewrite Hid.
Qed.

(** What [SubmitMessage] does once the id is known: it sends a message
    that has this id and the channel, recipient, level and title of the
    one submitted, or it returns an error, or it panics. *)
Lemma SubmitMessage_cases {P : Platform} (m : Message) (s s0 : St) (id : string) :
  assignID m s = (Some id, s0) ->
  (exists m',
     SubmitMessage m s = send m' s0
     /\ ID m' = id
     /\ SendChannelName m' = SendChannelName m /\ SendTo m' = SendTo m
     /\ MsgLevel m' = MsgLevel m /\ Title m' = Title m
     /\ (shouldGenerateCardMsg m = false -> m' = withID m id)
     /\ (MsgType m' = MsgType m \/ MsgType m' = "interactive"))
  \/ (exists e, SubmitMessage m s = (Returned id (Some e), s0))
  \/ (exists why, SubmitMessage m s = (Panicked why, s0)).
Proof.
  intros Hid. unfold SubmitMessage, bind. rewrite Hid.
  change (shouldGenerateCardMsg (withID m id)) with (shouldGenerateCardMsg m).
  destruct (shouldGenerateCardMsg m) eqn:Hcard.
  2: { left. exists (withID m id). repeat split; auto. }
  change (Content (withID m id)) with (Content m).
  destruct (Content m) as [|content| | | | |] eqn:Hcontent;
    try (left; exists (withID m id); repeat split; auto; discriminate).
  unfold generateTextCardMsgWithLevel, bind, Now, ret.
  destruct (json_Unmarshal_map _) as [card|e|why].
  - left. exists (withCard (withID m id) card). repeat split; auto. discriminate.
  - right. left. by eexists.
  - right. right. by eexists.
Qed.

(** X14.  When [SubmitMessage] returns an id and no error, exactly one
    message has been appended to the queue, which was open and had room;
    that message carries the returned id and the channel, recipient,
    level and title of the message submitted, its type is the submitted
    one or ["interactive"], and it is the submitted message itself (with
    the id) when the message does not qualify for a card.  A message
    submitted with an id keeps it and leaves the generator alone.
    Nothing is sent over the network and the cache is not touched. *)
Theorem SubmitMessage_ok {P : Platform} (m : Message) (s s' : St) (id : string) :
  SubmitMessage m s = (Returned id None, s') ->
  closed (messages s) = false
  /\ Z.of_nat (length (buf (messages s))) < capacity (messages s)
  /\ (exists m',
        buf (messages s') = (buf (messages s) ++ [m'])%list
        /\ ID m' = id
        /\ SendChannelName m' = SendChannelName m /\ SendTo m' = SendTo m
        /\ MsgLevel m' = MsgLevel m /\ Title m' = Title m
        /\ (MsgType m' = MsgType m \/ MsgType m' = "interactive")
        /\ (shouldGenerateCardMsg m = false -> m' = withID m id))
  /\ (ID m <> "" -> id = ID m /\ msgID s' = msgID s)
  /\ trace s' = trace s /\ buckets s' = buckets s /\ clock s' = clock s.
Proof.
  intros Hrun.
  destruct (assignID m s) as [[id0|] s0] eqn:Hid.
  2: { unfold SubmitMessage, bind in Hrun. rewrite Hid in Hrun. discriminate. }
  destruct (assignID_frame m s s0 id0 Hid) as (Hclock & Htrace & Hbuckets & Hmsgs).
  assert (ID m <> "" -> id0 = ID m /\ s0 = s) as Hgiven.
  { intros Hne. rewrite (assignID_given m s Hne) in Hid. by injection Hid as <- <-. }
  destruct (SubmitMessage_cases m s s0 id0 Hid)
    as [(m' & Hsend & Hm' & Hch & Hto & Hlevel & Htitle & Hplain & Htype)
       |[(e & He)|(why & Hwhy)]];
    [|rewrite He in Hrun; discriminate|rewrite Hwhy in Hrun; discriminate].
  rewrite Hsend in Hrun.
  destruct (send_cases m' s0)
    as [(_ & Hs)|[(_ & _ & Hs)|(Hopen & Hroom & s1 & Hs & Hbuf & _ & _ & Hc & Ht & Hb & Hg)]];
    try (rewrite Hs in Hrun; discriminate).
  rewrite Hs in Hrun. injection Hrun as Hidm <-. rewrite Hm' in Hidm. subst id0.
  rewrite Hmsgs in Hopen, Hroom, Hbuf.
  split; [exact Hopen|]. split; [exact Hroom|]. split.
  { exists m'. repeat split; auto. }
  split.
  { intros Hne. destruct (Hgiven Hne) as [-> ->]. by split. }
  by rewrite Hc, Ht, Hb, Hclock, Htrace, Hbuckets.
Qed.

Lemma SubmitMessage_ok_witness :
  exists m',
    buf (messages
           (snd (SubmitMessage (P := examplePlatform unreachable)
                   (exampleMessage "ops" "" "post" (Str "x")) exampleState)))
    = (buf (messages exampleState) ++ [m'])%list
    /\ ID m' = "m-1".
Proof.
  destruct (SubmitMessage_ok (P := examplePlatform unreachable)
              (exampleMessage "ops" "" "post" (Str "x")) exampleState
              (snd (SubmitMessage (P := examplePlatform unreachable)
                      (exampleMessage "ops" "" "post" (Str "x")) exampleState))
              "m-1" eq_refl)
    as (_ & _ & (m' & Hbuf & Hid & _) & _).
  by exists m'.
Defined.

(** X15.  [SubmitMessage] never enqueues on a closed or full channel: the
    queue is left as it is and no success is returned.  A message that
    does not qualify for a card panics on a closed channel and, on a
    full one, blocks with that message, carrying its id, still to be
    sent. *)
Theorem SubmitMessage_no_room {P : Platform} (m : Message) (s : St) :
  closed (messages s) = true
  \/ capacity (messages s) <= Z.of_nat (length (buf (messages s))) ->
  messages (snd (SubmitMessage m s)) = messages s
  /\ (forall id, fst (SubmitMessage m s) <> Returned id None)
  /\ (forall id s0,
        assignID m s = (Some id, s0) -> shouldGenerateCardMsg m = false ->
        fst (SubmitMessage m s)
        = if closed (messages s) then Panicked "send on closed channel"
          else Parked (withID m id)).
Proof.
  intros Hno.
  destruct (assignID m s) as [[id0|] s0] eqn:Hid.
  2: { unfold SubmitMessage, bind. rewrite Hid. simpl.
       unfold assignID, msgID_New, ret in Hid.
       destruct (empty (ID m)); [|discriminate].
       destruct (msgid.New (msgID s)) as [[? ?]|]; [discriminate|].
       injection Hid as <-. simpl.
       split; [reflexivity|]. split; discriminate. }
  destruct (assignID_frame m s s0 id0 Hid) as (_ & _ & _ & Hmsgs).
  destruct (SubmitMessage_cases m s s0 id0 Hid)
    as [(m' & Hsend & Hm' & _ & _ & _ & _ & Hplain & _)|[(e & He)|(why & Hwhy)]].
  - rewrite Hsend.
    destruct (send_cases m' s0)
      as [(Hclosed & Hs)|[(Hopen & Hfull & Hs)|(Hopen & Hroom & _)]].
    + rewrite Hs, <- Hmsgs, Hclosed. simpl.
      split; [reflexivity|]. split; [discriminate|].
      intros id s1 [= -> ->] _. reflexivity.
    + rewrite Hs, <- Hmsgs, Hopen. simpl.
      split; [reflexivity|]. split; [discriminate|].
      intros id s1 [= -> ->] Hc. by rewrite (Hplain Hc).
    + rewrite Hmsgs in Hopen, Hroom. destruct Hno as [Hc|Hf]; [congruence|lia].
  - rewrite He. simpl. split; [exact Hmsgs|]. split; [discriminate|].
    intros id s1 [= -> ->] Hc. exfalso. revert He.
    unfold SubmitMessage, bind. rewrite Hid.
    change (shouldGenerateCardMsg (withID m id)) with (shouldGenerateCardMsg m).
    rewrite Hc. unfold send. by repeat case_match.
  - rewrite Hwhy. simpl. split; [exact Hmsgs|]. split; [discriminate|].
    intros id s1 [= -> ->] Hc. revert Hwhy.
    unfold SubmitMessage, bind. rewrite Hid.
    change (shouldGenerateCardMsg (withID m id)) with (shouldGenerateCardMsg m).
    rewrite Hc. unfold send. rewrite <- Hmsgs.
    destruct (closed (messages s1)); [by intros [= <-]|].
    by repeat case_match.
Qed.

Lemma SubmitMessage_no_room_witness :
  fst (SubmitMessage (P := examplePlatform unreachable)
         (exampleMessage "ops" "" "post" (Str "x"))
         (snd (allocate (P := examplePlatform unreachable) 0 exampleState)))
  = Parked (exampleMessage "ops" "" "post" (Str "x")).
Proof.
  destruct (SubmitMessage_no_room (P := examplePlatform unreachable)
              (exampleMessage "ops" "" "post" (Str "x"))
              (snd (allocate (P := examplePlatform unreachable) 0 exampleState)))
    as (_ & _ & Hout); [right; simpl; lia|].
  exact (Hout "m-1" _ eq_refl eq_refl).
Defined.

(** X16.  The three convenience senders submit a message that is never
    rewritten into a card: with a working id generator and room in an
    open queue, each returns the next generated id and appends exactly
    the message it was given, with that id, no level and no title;
    [SendTemplateCardMessage] appends an ["interactive"] message whose
    content is the template reference. *)
Theorem senders_enqueue {P : Platform} (s : St) (id : string) (ids : msgid.ID) :
  msgid.New (msgID s) = Some (id, ids) ->
  closed (messages s) = false ->
  Z.of_nat (length (buf (messages s))) < capacity (messages s) ->
  (forall botName msgType content, exists s',
      SendBotMessage botName msgType content s = (Returned id None, s')
      /\ msgID s' = ids
      /\ buf (messages s')
         = (buf (messages s)
            ++ [{| ID := id; SendChannelName := botName; SendTo := "";
                   MsgType := msgType; MsgLevel := ""; Title := "";
                   Content := content |}])%list)
  /\ (forall appName msgType sendTo content, exists s',
        SendAppMessage appName msgType sendTo content s = (Returned id None, s')
        /\ msgID s' = ids
        /\ buf (messages s')
           = (buf (messages s)
              ++ [{| ID := id; SendChannelName := appName; SendTo := sendTo;
                     MsgType := msgType; MsgLevel := ""; Title := "";
                     Content := content |}])%list)
  /\ (forall appName templateID sendTo content, exists s',
        SendTemplateCardMessage appName templateID sendTo content s
        = (Returned id None, s')
        /\ msgID s' = ids
        /\ buf (messages s')
           = (buf (messages s)
              ++ [{| ID := id; SendChannelName := appName; SendTo := sendTo;
                     MsgType := "interactive"; MsgLevel := ""; Title := "";
                     Content := templateCardData templateID content |}])%list).
Proof.
  intros Hnew Hopen Hroom.
  assert (forall m : Message,
             ID m = "" -> MsgLevel m = "" ->
             exists s',
               SubmitMessage m s = (Returned id None, s')
               /\ msgID s' = ids
               /\ buf (messages s') = (buf (messages s) ++ [withID m id])%list)
    as Hsubmit.
  { intros m Hid Hlevel. unfold SubmitMessage, bind, assignID, msgID_New.
    rewrite Hid. simpl. rewrite Hnew.
    unfold shouldGenerateCardMsg. simpl. rewrite Hlevel. simpl.
    unfold send. simpl. rewrite Hopen.
    replace (Z.of_nat (length (buf (messages s))) <? capacity (messages s))
      with true by lia.
    by eexists. }
  split; [|split]; intros; apply Hsubmit; reflexivity.
Qed.

Lemma senders_enqueue_witness :
  exists s',
    SendBotMessage (P := examplePlatform unreachable) "ops" "text" (Str "x")
      exampleState
    = (Returned
         (fst (default ("", msgID exampleState) (msgid.New (msgID exampleState))))
         None, s').
Proof.
  destruct (senders_enqueue (P := examplePlatform unreachable) exampleState
              (fst (default ("", msgID exampleState)
                      (msgid.New (msgID exampleState))))
              (snd (default ("", msgID exampleState)
                      (msgid.New (msgID exampleState)))))
    as (Hbot & _); [reflexivity|reflexivity|simpl; lia|].
  destruct (Hbot "ops" "text" (Str "x")) as (s' & Hs & _).
  by exists s'.
Defined.

(** ** Delivery, further *)

Lemma after_refl (s : St) : after s s.
Proof.
  split; [done|]. split; [done|]. split; [lia|].
  exists []. rewrite app_nil_r. by split.
Qed.

Lemma after_trans (s1 s2 s3 : St) : after s1 s2 -> after s2 s3 -> after s1 s3.
Proof.
  intros (Hm & Hg & Hc & ext & Ht & Hp) (Hm' & Hg' & Hc' & ext' & Ht' & Hp').
  split; [congruence|]. split; [congruence|]. split; [lia|].
  exists (ext ++ ext')%list. split.
  - by rewrite Ht', Ht, <- app_assoc.
  - rewrite requests_app. by apply Forall_app.
Qed.

Lemma after_record_post (request : Request.t) (s : St) :
  Request.Method request = "POST" -> after s (record (Sent request) s).
Proof.
  intros Hpost. split; [done|]. split; [done|]. split; [simpl; lia|].
  exists [Sent request]. split; [done|]. by repeat constructor.
Qed.

Lemma after_asleep (d : Z) (s : St) : after s (asleep d s).
Proof.
  split; [done|]. split; [done|]. split; [simpl; lia|].
  exists [Slept d]. split; [done|]. constructor.
Qed.

(** The loop of the executor, on a POST. *)
Lemma retryLoop_after {P : Platform} (request : Request.t) (maxRetries : Z)
    (left : nat) (retry : Z) (s : St) :
  Request.Method request = "POST" ->
  after s (snd (retryLoop request maxRetries left retry s)).
Proof.
  intros Hpost. revert retry s. induction left as [|left IH]; intros retry s.
  - apply after_refl.
  - destruct (net (trace s) (clock s) request) as [e|resp] eqn:Hnet.
    { rewrite (retryLoop_failure _ _ _ _ _ _ Hnet). by apply after_record_post. }
    destruct (Z.eq_dec (Response.StatusCode resp) 429) as [Hstatus|Hstatus].
    2: { rewrite (retryLoop_answer _ _ _ _ _ _ Hnet Hstatus).
         by apply after_record_post. }
    destruct (Z_lt_le_dec retry maxRetries) as [Hretry|Hretry].
    + rewrite (retryLoop_retry _ _ _ _ _ _ Hnet Hstatus Hretry).
      eapply after_trans; [|apply IH].
      eapply after_trans; [by apply after_record_post|apply after_asleep].
    + rewrite (retryLoop_exhausted _ _ _ _ _ _ Hnet Hstatus Hretry).
      by apply after_record_post.
Qed.

Lemma sendLarkAPIRequest_after {P : Platform} (request : Request.t)
    (maxRetries : Z) (s : St) :
  Request.Method request = "POST" ->
  after s (snd (sendLarkAPIRequest request maxRetries s)).
Proof. intros Hpost. by apply retryLoop_after. Qed.

Lemma getToken_after {P : Platform} (appID appSecret appTokenAPI : string)
    (s : St) :
  after s (snd (getToken appID appSecret appTokenAPI s)).
Proof.
  unfold getToken, bind, cache_GetString.
  destruct (cache.GetString (clock s) (tokenCacheKey appID) (buckets s))
    as [[tok err] b].
  set (s0 := {| clock := clock s; trace := trace s; buckets := b;
                messages := messages s; msgID := msgID s |}).
  assert (after s s0) as H0.
  { split; [done|]. split; [done|]. split; [simpl; lia|].
    exists []. simpl. rewrite app_nil_r. by split. }
  destruct (bool_decide (err = None) && negb (String.eqb tok "")); [exact H0|].
  pose proof (sendLarkAPIRequest_after
                (tokenRequest appID appSecret appTokenAPI) 3 s0 eq_refl) as H1.
  destruct (sendLarkAPIRequest _ 3 s0) as [[response|e|why] s1];
    simpl in H1; try exact (after_trans _ _ _ H0 H1).
  destruct (json_Unmarshal_appTokenResp _) as [rs|e|why];
    try exact (after_trans _ _ _ H0 H1).
  destruct (negb (appTokenResp.Code rs =? 0)); [exact (after_trans _ _ _ H0 H1)|].
  simpl. eapply after_trans; [exact (after_trans _ _ _ H0 H1)|].
  split; [done|]. split; [done|]. split; [simpl; lia|].
  exists []. simpl. rewrite app_nil_r. by split.
Qed.

Lemma callToken_after {P : Platform} (f : tokenFunc) (s : St) :
  after s (snd (callToken f s)).
Proof.
  unfold callToken, bind, emit.
  set (s0 := {| trace := (trace s ++ [TokenCalled f])%list |}).
  assert (after s s0) as H0.
  { split; [done|]. split; [done|]. split; [simpl; lia|].
    exists [TokenCalled f]. split; [done|]. constructor. }
  destruct f as [returns|appID appSecret appTokenAPI]; [exact H0|].
  eapply after_trans; [exact H0|]. cbv zeta. apply getToken_after.
Qed.

Lemma sendBotWebhookMessage_after {P : Platform} (webhook : string) (m : Message)
    (s : St) :
  after s (snd (sendBotWebhookMessage webhook m s))
  /\ buckets (snd (sendBotWebhookMessage webhook m s)) = buckets s.
Proof.
  unfold sendBotWebhookMessage.
  destruct (botParams m) as [params|e|why];
    try (split; [apply after_refl|reflexivity]).
  unfold bind.
  pose proof (sendLarkAPIRequest_after (botRequest webhook params) 3 s eq_refl)
    as H1.
  destruct (sendLarkAPIRequest_first (botRequest webhook params) 3 s)
    as (_ & _ & Hb).
  destruct (sendLarkAPIRequest _ 3 s) as [[response|e|why] s1];
    simpl in *; try by split.
  destruct (json_Unmarshal_messageResp _) as [rs|e|why]; try by split.
  by destruct (negb (messageResp.Code rs =? 0)).
Qed.

Lemma sendLarkAppMessage_after {P : Platform} (token msgAPI : string)
    (m : Message) (s : St) :
  after s (snd (sendLarkAppMessage token msgAPI m s)).
Proof.
  unfold sendLarkAppMessage.
  destruct (appContent m) as [content|e|why]; try apply after_refl.
  unfold bind.
  pose proof (sendLarkAPIRequest_after (appRequest token msgAPI m content) 3 s
                eq_refl) as H1.
  destruct (sendLarkAPIRequest _ 3 s) as [[response|e|why] s1];
    simpl in *; try done.
  destruct (json_Unmarshal_messageResp _) as [rs|e|why]; try done.
  by destruct (negb (messageResp.Code rs =? 0)).
Qed.

(** X17.  Whatever the message and the outcome, [sendMsg] leaves the queue
    and the id generator as they are, never moves the clock back, only
    adds to the history, and every request it makes is a POST.  When
    the channel resolves to a webhook the token cache is not touched
    either. *)
Theorem sendMsg_frame {P : Platform} (n : notify) (m : Message) (s : St) :
  messages (snd (sendMsg n m s)) = messages s
  /\ msgID (snd (sendMsg n m s)) = msgID s
  /\ clock s <= clock (snd (sendMsg n m s))
  /\ (exists ext,
        trace (snd (sendMsg n m s)) = (trace s ++ ext)%list
        /\ Forall (fun r => Request.Method r = "POST") (requests ext))
  /\ (is_Some (botWebhooks n !! resolvedChannel n m) ->
      buckets (snd (sendMsg n m s)) = buckets s).
Proof.
  assert (after s (snd (sendMsg n m s))
          /\ (is_Some (botWebhooks n !! resolvedChannel n m) ->
              buckets (snd (sendMsg n m s)) = buckets s)) as [Hafter Hb].
  { unfold sendMsg. fold (resolvedChannel n m).
    destruct (botWebhooks n !! resolvedChannel n m) as [webhook|].
    { destruct (sendBotWebhookMessage_after webhook m s). by split. }
    split; [|by intros [? ?]].
    destruct (apps n !! resolvedChannel n m) as [a|]; [|apply after_refl].
    destruct (String.eqb (SendTo m) ""); [apply after_refl|].
    unfold bind. pose proof (callToken_after (token a) s) as H0.
    destruct (callToken (token a) s) as [[t|e|why] s0]; simpl in *; try done.
    eapply after_trans; [exact H0|apply sendLarkAppMessage_after]. }
  destruct Hafter as (Hm & Hg & Hc & Ht). by repeat split.
Qed.

(** A content that is not a string fails the assertion. *)
Lemma assertString_other (v : any) :
  (forall c, v <> Str c) ->
  assertString v = Panic "interface conversion: interface {} is not string".
Proof. intros Hv. destruct v; try reflexivity. by destruct (Hv s). Qed.

Lemma botParams_panics {P : Platform} (m : Message) :
  (forall c, Content m <> Str c) ->
  MsgType m ∈ botStringTypes ->
  botParams m = Panic "interface conversion: interface {} is not string".
Proof.
  intros Hcontent Htype. unfold botParams.
  rewrite (assertString_other _ Hcontent).
  apply list_elem_of_In in Htype. simpl in Htype.
  destruct Htype as [<-|[<-|[<-|[]]]]; reflexivity.
Qed.

Lemma appContent_panics {P : Platform} (m : Message) :
  (forall c, Content m <> Str c) ->
  MsgType m ∈ appStringTypes ->
  appContent m = Panic "interface conversion: interface {} is not string".
Proof.
  intros Hcontent Htype. unfold appContent, marshalField.
  rewrite (assertString_other _ Hcontent).
  apply list_elem_of_In in Htype. simpl in Htype.
  destruct Htype as [<-|[<-|[<-|[<-|[<-|[<-|[<-|[<-|[]]]]]]]]]; reflexivity.
Qed.

(** X18.  A content that is not a string makes [sendMsg] panic, with no
    request made, for the message types whose content is asserted to be
    one: text, share_chat and image on a webhook, and text, image, audio,
    file, media, sticker, share_chat and share_user on an application,
    where the panic comes after the token has been obtained. *)
Theorem sendMsg_content_panics {P : Platform} (n : notify) (m : Message) (s : St) :
  (forall c, Content m <> Str c) ->
  (forall webhook,
      botWebhooks n !! resolvedChannel n m = Some webhook ->
      MsgType m ∈ botStringTypes ->
      sendMsg n m s
      = (Panic "interface conversion: interface {} is not string", s))
  /\ (forall a t s1,
        botWebhooks n !! resolvedChannel n m = None ->
        apps n !! resolvedChannel n m = Some a ->
        SendTo m <> "" ->
        MsgType m ∈ appStringTypes ->
        callToken (token a) s = (Ok t, s1) ->
        sendMsg n m s
        = (Panic "interface conversion: interface {} is not string", s1)).
Proof.
  intros Hcontent. split.
  - intros webhook Hhook Htype. unfold sendMsg. fold (resolvedChannel n m).
    rewrite Hhook. unfold sendBotWebhookMessage.
    by rewrite (botParams_panics m Hcontent Htype).
  - intros a t s1 Hhook Happ Hto Htype Htoken.
    unfold sendMsg. fold (resolvedChannel n m). rewrite Hhook, Happ.
    apply String.eqb_neq in Hto. rewrite Hto. unfold bind. rewrite Htoken.
    unfold sendLarkAppMessage. by rewrite (appContent_panics m Hcontent Htype).
Qed.

Lemma sendMsg_content_panics_witness :
  sendMsg (P := examplePlatform unreachable) exampleNotify
    (exampleMessage "ops" "" "text" (Num 7)) exampleState
  = (Panic "interface conversion: interface {} is not string", exampleState).
Proof.
  destruct (sendMsg_content_panics (P := examplePlatform unreachable)
              exampleNotify (exampleMessage "ops" "" "text" (Num 7))
              exampleState) as (Hbot & _); [discriminate|].
  apply (Hbot "https://open.feishu.cn/open-apis/bot/v2/hook/xxxxx").
  - reflexivity.
  - apply list_elem_of_In. simpl. by left.
Defined.

Lemma appContent_invalid {P : Platform} (m : Message) :
  MsgType m ∉ appTypes ->
  appContent m = Err (Errorf_s "invalid message type: %s" (MsgType m)).
Proof.
  intros Htype. unfold appContent.
  assert (forall t, t ∈ appTypes -> String.eqb (MsgType m) t = false) as Hne.
  { intros t Ht. apply String.eqb_neq. by intros <-. }
  rewrite !Hne; [reflexivity|..]; apply list_elem_of_In; simpl; tauto.
Qed.

Lemma callToken_first {P : Platform} (f : tokenFunc) (s : St) :
  exists rest,
    trace (snd (callToken f s)) = (trace s ++ TokenCalled f :: rest)%list.
Proof.
  unfold callToken, bind, emit.
  destruct f as [returns|appID appSecret appTokenAPI].
  - by exists [].
  - cbv zeta.
    set (s0 := {| trace := (trace s ++ [TokenCalled _])%list |}).
    destruct (getToken_after appID appSecret appTokenAPI s0)
      as (_ & _ & _ & ext & Ht & _).
    exists ext. rewrite Ht. simpl. by rewrite <- app_assoc.
Qed.

(** X19.  On the application path, with a recipient given, the token is
    obtained before the message is looked at: the call of the token
    function is the first thing that happens; when it fails, [sendMsg]
    returns its error wrapped with the channel name and does nothing
    more; and a message of a type the application path has no case for
    is refused with "invalid message type" only after the token has been
    obtained, with no message request made. *)
Theorem sendMsg_app_token_first {P : Platform} (n : notify) (m : Message) (s : St)
    (a : app) :
  botWebhooks n !! resolvedChannel n m = None ->
  apps n !! resolvedChannel n m = Some a ->
  SendTo m <> "" ->
  (exists rest,
      trace (snd (sendMsg n m s))
      = (trace s ++ TokenCalled (token a) :: rest)%list)
  /\ (forall e s1,
        callToken (token a) s = (Err e, s1) ->
        sendMsg n m s
        = (Err (Errorf_sw "failed to get token for lark app %s: %w"
                  (resolvedChannel n m) e), s1))
  /\ (forall t s1,
        callToken (token a) s = (Ok t, s1) ->
        MsgType m ∉ appTypes ->
        sendMsg n m s
        = (Err (Errorf_s "invalid message type: %s" (MsgType m)), s1)).
Proof.
  intros Hhook Happ Hto.
  assert (sendMsg n m s
          = (t <- callToken (token a) ;;
             match t with
             | Err e =>
                 ret (Err (Errorf_sw "failed to get token for lark app %s: %w"
                             (resolvedChannel n m) e))
             | Panic why => ret (Panic why)
             | Ok t => sendLarkAppMessage t (msgAPI a) m
             end) s) as ->.
  { unfold sendMsg. fold (resolvedChannel n m). rewrite Hhook, Happ.
    apply String.eqb_neq in Hto. by rewrite Hto. }
  unfold bind. split; [|split].
  - destruct (callToken_first (token a) s) as (rest & Ht).
    destruct (callToken (token a) s) as [[t|e|why] s1]; simpl in Ht;
      try by exists rest.
    destruct (sendLarkAppMessage_after t (msgAPI a) m s1)
      as (_ & _ & _ & ext & Ht' & _).
    exists (rest ++ ext)%list. rewrite Ht', Ht. by rewrite <- app_assoc.
  - intros e s1 ->. reflexivity.
  - intros t s1 -> Htype. unfold sendLarkAppMessage.
    by rewrite (appContent_invalid m Htype).
Qed.

Lemma sendMsg_app_token_first_witness :
  sendMsg (P := examplePlatform unreachable) exampleNotify
    (exampleMessage "app" "ou_1" "video" (Str "x")) exampleState
  = (Err (Errorf_s "invalid message type: %s" "video"),
     record (TokenCalled (UserToken (Ok "t-xxxxxxx"))) exampleState).
Proof.
  destruct (sendMsg_app_token_first (P := examplePlatform unreachable)
              exampleNotify (exampleMessage "app" "ou_1" "video" (Str "x"))
              exampleState
              {| token := UserToken (Ok "t-xxxxxxx");
                 msgAPI := larkHost ++ messageAPI |})
    as (_ & _ & Hinvalid); [reflexivity|reflexivity|discriminate|].
  apply (Hinvalid "t-xxxxxxx"); [reflexivity|].
  intros Hin. apply list_elem_of_In in Hin. simpl in Hin.
  intuition discriminate.
Defined.

(** X20.  The verdict of the application path.  The request carries the
    token as a bearer token, goes to the message API of the application
    and names the recipient by user id.  When it is answered at once
    with any status other than 429, the status is not looked at: the
    call succeeds if the body decodes to a code of 0, fails with the
    bare message of the reply if it decodes to another code, and fails
    with a parse error if it does not decode; one request is made.  And
    whenever the call succeeds, the executor has returned a response
    whose body decodes to a code of 0. *)
Theorem sendLarkAppMessage_verdict {P : Platform} (token msgAPI : string)
    (m : Message) (content : string) (s : St) :
  appContent m = Ok content ->
  let request := appRequest token msgAPI m content in
  Request.URL request = msgAPI
  /\ Request.Headers request !! "Authorization" = Some ("Bearer " ++ token)
  /\ Request.QueryParams request !! "receive_id_type" = Some "user_id"
  /\ (forall resp : Response.t,
        net (trace s) (clock s) request = Reply resp ->
        Response.StatusCode resp <> 429 ->
        sendLarkAppMessage token msgAPI m s
        = (match json_Unmarshal_messageResp (Response.Body resp) with
           | Ok rs =>
               if messageResp.Code rs =? 0 then Ok tt
               else Err (errors_New (messageResp.Msg rs))
           | Err e => Err (Errorf_w "failed to parse response: %w" e)
           | Panic why => Panic why
           end,
           record (Sent request) s))
  /\ (fst (sendLarkAppMessage token msgAPI m s) = Ok tt ->
      exists (response : Response.t) (rs : messageResp.t),
        fst (sendLarkAPIRequest request 3 s) = Ok response
        /\ json_Unmarshal_messageResp (Response.Body response) = Ok rs
        /\ messageResp.Code rs = 0).
Proof.
  intros Hcontent request.
  split; [reflexivity|]. split; [reflexivity|]. split; [reflexivity|].
  unfold sendLarkAppMessage. rewrite Hcontent. fold request. unfold bind.
  split.
  - intros resp Hnet Hstatus.
    destruct (sendLarkAPIRequest_turns request 3) as (left & ->).
    rewrite (retryLoop_answer _ _ _ _ _ _ Hnet Hstatus).
    destruct (json_Unmarshal_messageResp (Response.Body resp)) as [rs|e|why];
      try reflexivity.
    by destruct (messageResp.Code rs =? 0).
  - destruct (sendLarkAPIRequest request 3 s) as [[response|e|why] s1];
      simpl; try discriminate.
    destruct (json_Unmarshal_messageResp (Response.Body response))
      as [rs|e|why] eqn:Hrs; try discriminate.
    destruct (Z.eqb_spec (messageResp.Code rs) 0) as [Hcode|Hcode];
      [|discriminate].
    intros _. by exists response, rs.
Qed.

Lemma sendLarkAppMessage_verdict_witness :
  sendLarkAppMessage (P := examplePlatform (constantServer 500 delivered ∅))
    "t" "https://api" (exampleMessage "app" "ou_1" "post" (Str "x")) exampleState
  = (Ok tt,
     record
       (Sent (appRequest "t" "https://api"
                (exampleMessage "app" "ou_1" "post" (Str "x")) "{}"))
       exampleState).
Proof.
  destruct (sendLarkAppMessage_verdict
              (P := examplePlatform (constantServer 500 delivered ∅))
              "t" "https://api" (exampleMessage "app" "ou_1" "post" (Str "x"))
              "{}" exampleState)
    as (_ & _ & _ & Hverdict & _); [reflexivity|].
  exact (Hverdict _ eq_refl ltac:(discriminate)).
Defined.

(** ** Message ids *)

Lemma digitValue_digit (d : Z) :
  0 <= d < 36 -> digitValue (strconv.digit d) = d.
Proof.
  intros Hd. unfold digitValue, strconv.digit.
  rewrite nat_ascii_embedding by (destruct (d <? 10); lia).
  destruct (Z.ltb_spec d 10).
  - rewrite Z2Nat.id by lia.
    replace (48 + d <? 58) with true by lia. lia.
  - rewrite Z2Nat.id by lia.
    replace (87 + d <? 58) with false by lia. lia.
Qed.

Lemma string_app_assoc (a b c : string) : (a ++ b) ++ c = a ++ (b ++ c).
Proof.
  induction a as [|x a IH]; [reflexivity|].
  change (String x ((a ++ b) ++ c) = String x (a ++ (b ++ c))). by rewrite IH.
Qed.

Lemma string_app_inv_head (p a b : string) : p ++ a = p ++ b -> a = b.
Proof. apply String.app_inj. Qed.

(** The digits are written in front of what is there already. *)
Lemma format_digits_acc (base : Z) (count : nat) :
  forall (n : Z) (acc : string),
    strconv.format_digits base count n acc
    = strconv.format_digits base count n "" ++ acc.
Proof.
  induction count as [|count IH]; intros n acc; simpl; [reflexivity|].
  destruct (n / base =? 0); [reflexivity|].
  rewrite IH. rewrite (IH _ (String _ "")). by rewrite string_app_assoc.
Qed.

Lemma digitsValue_app (base acc : Z) (s t : string) :
  digitsValue base acc (s ++ t) = digitsValue base (digitsValue base acc s) t.
Proof. revert acc. induction s as [|c s IH]; intros acc; simpl; [done|apply IH]. Qed.

(** Reading back the digits of a number gives the number. *)
Lemma digitsValue_format_digits (count : nat) :
  forall n : Z,
    0 <= n < 36 ^ Z.of_nat count ->
    digitsValue 36 0 (strconv.format_digits 36 count n "") = n.
Proof.
  induction count as [|count IH]; intros n Hn.
  - simpl in *. lia.
  - assert (0 <= n mod 36 < 36) as Hmod by (apply Z.mod_pos_bound; lia).
    simpl strconv.format_digits.
    destruct (Z.eqb_spec (n / 36) 0) as [Hq|Hq].
    + simpl. rewrite (digitValue_digit _ Hmod).
      pose proof (Z.div_mod n 36 ltac:(lia)). lia.
    + rewrite format_digits_acc, digitsValue_app. rewrite IH.
      * simpl. rewrite (digitValue_digit _ Hmod).
        pose proof (Z.div_mod n 36 ltac:(lia)). lia.
      * split; [apply Z.div_pos; lia|].
        apply Z.div_lt_upper_bound; [lia|].
        rewrite Nat2Z.inj_succ, Z.pow_succ_r in Hn by lia. lia.
Qed.

(** [FormatUint] in base 36 tells the [uint64] values apart. *)
Lemma FormatUint_inj (a b : Z) :
  0 <= a < 2 ^ 64 -> 0 <= b < 2 ^ 64 ->
  strconv.FormatUint a 36 = strconv.FormatUint b 36 -> a = b.
Proof.
  intros Ha Hb Heq. unfold strconv.FormatUint in Heq.
  assert (2 ^ 64 < 36 ^ Z.of_nat 64) as Hbound by reflexivity.
  rewrite <- (digitsValue_format_digits 64 a) by lia.
  rewrite <- (digitsValue_format_digits 64 b) by lia.
  by rewrite Heq.
Qed.

(** The ids of [k] calls in a row, while the counter does not wrap. *)
Lemma successive_ids (k : nat) :
  forall m : msgid.ID,
    0 <= msgid.index m ->
    msgid.index m + Z.of_nat k < 2 ^ 64 ->
    successive k m
    = Some (map (fun i => msgid.prefix m
                          ++ strconv.FormatUint (msgid.index m + Z.of_nat i) 36)
              (seq 1 k),
            {| msgid.index := msgid.index m + Z.of_nat k;
               msgid.prefix := msgid.prefix m |}).
Proof.
  induction k as [|k IH]; intros [index prefix] Hlow Hhigh; simpl in *.
  - by rewrite Z.add_0_r.
  - unfold msgid.New. simpl.
    rewrite (Z.mod_small (index + 1)) by lia.
    replace (index + 1 =? 0) with false by lia.
    rewrite IH by (simpl; lia). simpl.
    rewrite <- (seq_shift k 1), map_map. do 3 f_equal.
    + apply map_ext. intros i. do 2 f_equal. lia.
    + lia.
Qed.

(** X21.  Ids are unique: as long as the counter stays below [2^64], [k]
    calls of [New] in a row all return, their [k] ids are pairwise
    different and all begin with the prefix, and the counter has
    advanced by [k] with the prefix unchanged.  The call made with the
    counter at [2^64 - 1] does not return. *)
Theorem New_ids_distinct (m : msgid.ID) (k : nat) :
  0 <= msgid.index m ->
  msgid.index m + Z.of_nat k < 2 ^ 64 ->
  (exists ids m',
      successive k m = Some (ids, m')
      /\ length ids = k
      /\ NoDup ids
      /\ (forall id, id ∈ ids -> exists suffix, id = msgid.prefix m ++ suffix)
      /\ msgid.index m' = msgid.index m + Z.of_nat k
      /\ msgid.prefix m' = msgid.prefix m)
  /\ (msgid.index m = 2 ^ 64 - 1 -> msgid.New m = None).
Proof.
  intros Hlow Hhigh. split.
  2: { intros Hlast. unfold msgid.New. by rewrite Hlast. }
  eexists _, _. split; [apply (successive_ids k m Hlow Hhigh)|].
  split; [by rewrite length_map, length_seq|].
  split; [|split; [|by split]].
  - apply (NoDup_fmap_2_strong _ (seq 1 k)); [|apply NoDup_seq].
    intros i j Hi Hj Heq.
    apply elem_of_seq in Hi, Hj.
    apply string_app_inv_head, FormatUint_inj in Heq; lia.
  - intros id Hid. apply list_elem_of_In, in_map_iff in Hid.
    destruct Hid as (i & <- & _). by eexists.
Qed.

Lemma New_ids_distinct_witness :
  exists ids m',
    successive 3 (msgid.NewMessageID "host" 0) = Some (ids, m') /\ NoDup ids.
Proof.
  destruct (New_ids_distinct (msgid.NewMessageID "host" 0) 3)
    as ((ids & m' & Hrun & _ & Hnodup & _) & _);
    [by vm_compute|by vm_compute|].
  by exists ids, m'.
Defined.

(** ** Package [ding] *)

Lemma ding_SubmitMessage_queue (message : ding.Message) (n : ding.notify) :
  ding.capacity (snd (ding.SubmitMessage message n)) = ding.capacity n
  /\ match fst (ding.SubmitMessage message n) with
     | ding.Returned id =>
         Z.of_nat (length (ding.messages n)) < ding.capacity n
         /\ ding.messages (snd (ding.SubmitMessage message n))
            = (ding.messages n
               ++ [{| ding.ID := id; ding.Title := ding.Title message;
                      ding.Content := ding.Content message |}])%list
     | _ => ding.messages (snd (ding.SubmitMessage message n)) = ding.messages n
     end.
Proof.
  unfold ding.SubmitMessage.
  destruct (if String.eqb (ding.ID message) "" then msgid.New (ding.msgID n)
            else Some (ding.ID message, ding.msgID n)) as [[id g]|]; [|done].
  by destruct (Z.ltb_spec (Z.of_nat (length (ding.messages n))) (ding.capacity n)).
Qed.

(** Whatever calls are made, the queue only grows, by one message for
    each submission that returns, and never beyond its capacity. *)
Lemma ding_run_queue (calls : list ding.call) :
  forall n : ding.notify,
    Z.of_nat (length (ding.messages n)) <= ding.capacity n ->
    ding.capacity (snd (ding.run calls n)) = ding.capacity n
    /\ length (ding.messages (snd (ding.run calls n)))
       = (length (ding.messages n) + ding.returned (fst (ding.run calls n)))%nat
    /\ Z.of_nat (length (ding.messages (snd (ding.run calls n))))
       <= ding.capacity n
    /\ ding.messages n `prefix_of` ding.messages (snd (ding.run calls n)).
Proof.
  induction calls as [|[message| |] calls IH]; intros n Hn.
  - simpl. unfold ding.returned. simpl. split; [done|]. split; [lia|]. by split.
  - simpl.
    destruct (ding_SubmitMessage_queue message n) as (Hcap & Hqueue).
    destruct (ding.SubmitMessage message n) as [r n1]. simpl in Hcap, Hqueue.
    assert (Z.of_nat (length (ding.messages n1)) <= ding.capacity n1
            /\ length (ding.messages n1)
               = (length (ding.messages n) + ding.returned [r])%nat
            /\ ding.messages n `prefix_of` ding.messages n1) as (H1 & Hlen & Hpre).
    { rewrite Hcap. destruct r as [id|pending|].
      - destruct Hqueue as (Hroom & ->). rewrite length_app. simpl.
        split; [lia|]. split; [reflexivity|]. by apply prefix_app_r.
      - rewrite Hqueue. unfold ding.returned. simpl. split; [lia|]. by split; [lia|].
      - rewrite Hqueue. unfold ding.returned. simpl. split; [lia|]. by split; [lia|]. }
    destruct (IH n1 H1) as (Hc & Hl & Hb & Hp).
    destruct (ding.run calls n1) as [rs n2]. simpl in *.
    split; [congruence|]. split.
    { rewrite Hl, Hlen. unfold ding.returned. simpl.
      destruct r; simpl; lia. }
    split; [lia|]. by etrans.
  - simpl. apply (IH n Hn).
  - simpl. apply (IH n Hn).
Qed.

(** X22.  The DingTalk notifier never delivers anything: from a notifier
    made by [New], whatever calls follow ([StartProcessor] and [Close]
    included), every submission that returns has put one message at the
    end of the queue, where it stays; at most [ChannelSize] submissions
    ever return, and once that many have, every submission blocks. *)
Theorem ding_queue_never_drained (hostname : string) (now : Z)
    (config : ding.Config) (n : ding.notify) (calls : list ding.call) :
  ding.New hostname now config = Ok n ->
  let outcomes := fst (ding.run calls n) in
  let n' := snd (ding.run calls n) in
  length (ding.messages n') = ding.returned outcomes
  /\ Z.of_nat (ding.returned outcomes) <= ding.ChannelSize config
  /\ (forall more : list ding.call,
        ding.messages n' `prefix_of` ding.messages (snd (ding.run more n')))
  /\ (Z.of_nat (ding.returned outcomes) = ding.ChannelSize config ->
      forall message id,
        fst (ding.SubmitMessage message n') <> ding.Returned id).
Proof.
  unfold ding.New. destruct (Z.ltb_spec (ding.ChannelSize config) 0); [done|].
  intros [= <-]. cbv zeta.
  destruct (ding_run_queue calls
              {| ding.msgID := msgid.NewMessageID hostname now;
                 ding.messages := []; ding.capacity := ding.ChannelSize config |})
    as (Hcap & Hlen & Hbound & _); [simpl; lia|].
  simpl in Hcap, Hlen, Hbound.
  split; [exact Hlen|]. split; [lia|]. split.
  - intros more. apply ding_run_queue. lia.
  - intros Hfull message id Hret.
    pose proof (ding_SubmitMessage_queue message
                  (snd (ding.run calls
                          {| ding.msgID := msgid.NewMessageID hostname now;
                             ding.messages := [];
                             ding.capacity := ding.ChannelSize config |})))
      as (_ & Hqueue).
    rewrite Hret in Hqueue. destruct Hqueue as (Hroom & _). lia.
Qed.

Lemma ding_queue_never_drained_witness :
  ding.returned
    (fst (ding.run
            [ding.Submit {| ding.ID := "a"; ding.Title := ""; ding.Content := "" |};
             ding.Start;
             ding.Submit {| ding.ID := "b"; ding.Title := ""; ding.Content := "" |}]
            {| ding.msgID := msgid.NewMessageID "host" 0; ding.messages := [];
               ding.capacity := 1 |}))
  = 1%nat.
Proof.
  destruct (ding_queue_never_drained "host" 0
              {| ding.Enabled := true; ding.ChannelSize := 1;
                 ding.PoolSize := 0; ding.IdleSize := 0 |}
              {| ding.msgID := msgid.NewMessageID "host" 0; ding.messages := [];
                 ding.capacity := 1 |}
              [ding.Submit {| ding.ID := "a"; ding.Title := ""; ding.Content := "" |};
               ding.Start;
               ding.Submit {| ding.ID := "b"; ding.Title := ""; ding.Content := "" |}]
              eq_refl) as (Hlen & _).
  symmetry. exact Hlen.
Defined.
